(** * speed.py: a shallow embedding and its verified properties

    The development follows the layout of [speed.py]: the exception
    classes, [FakeShutdownEvent] and [event_is_set], the interpreter
    version flags and the great-circle [distance] are translated from the
    source text; [distance] is given twice, over the reals for its
    algebraic identities and on IEEE 754 binary64 for what a run of the
    code returns or raises.  The measurement engine described by the design document
    (server selection, transfer loop, speed computation) is not part of
    the source text and is modelled from that document in the modules that
    say so. *)

From Stdlib Require Import ZArith List Bool String Lia.
From Stdlib Require Import Reals Lra.
From Stdlib Require Import QArith.
From Stdlib Require Floats.
Import ListNotations.

(** ** Exceptions *)

(** The exception classes of [speed.py] (lines 306-373) together with the
    builtin ones the embedded code can raise.  [SelectionInputError] and
    [PoolExhausted] are the design document's errors for a missing server
    list and for a phase in which no worker moved a byte; the source text
    declares no class under these names. *)
Inductive exn : Type :=
| AttributeError
| ValueError
| ZeroDivisionError
| SpeedtestException
| SpeedtestCLIError
| SpeedtestHTTPError
| SpeedtestConfigError
| SpeedtestServersError
| ConfigRetrievalError
| ServersRetrievalError
| InvalidServerIDType
| NoMatchedServers
| SpeedtestMiniConnectFailure
| InvalidSpeedtestMiniServer
| ShareResultsConnectFailure
| ShareResultsSubmitFailure
| SpeedtestUploadTimeout
| SpeedtestBestServerFailure
| SpeedtestMissingBestServer
| SelectionInputError
| PoolExhausted
| OverflowError.

(** The base class written in each [class] statement; [None] for the
    builtin classes and for the root of the module's hierarchy. *)
Definition base_class (e : exn) : option exn :=
  match e with
  | AttributeError | ValueError | ZeroDivisionError | OverflowError => None
  | SpeedtestException | SelectionInputError | PoolExhausted => None
  | ConfigRetrievalError | ServersRetrievalError => Some SpeedtestHTTPError
  | _ => Some SpeedtestException
  end.

(** The outcome of a call: a value or a raised exception. *)
Inductive result (A : Type) : Type :=
| Ok (a : A)
| Raise (e : exn).

Arguments Ok {A} a.
Arguments Raise {A} e.

Definition bind {A B : Type} (m : result A) (k : A -> result B) : result B :=
  match m with
  | Ok a => k a
  | Raise e => Raise e
  end.

Declare Scope py_scope.
Delimit Scope py_scope with py.
Notation "x <- m ;; k" := (bind m (fun x => k))
  (at level 61, m at next level, right associativity) : py_scope.

(** ** Shutdown events *)

Module Event.

(** The objects that reach [event_is_set]: the module's own stub, a
    [threading.Event] (which answers to both spellings) and an event of
    an interpreter that only knows the camel-case spelling. *)
Inductive event : Type :=
| FakeShutdownEvent
| ThreadingEvent (flag : bool)
| LegacyEvent (flag : bool).

(** [FakeShutdownEvent.isSet]: a static method whose body is
    [return False]. *)
Definition isSet (e : event) : result bool :=
  match e with
  | FakeShutdownEvent => Ok false
  | ThreadingEvent flag => Ok flag
  | LegacyEvent flag => Ok flag
  end.

(** [is_set = isSet] in the class body of [FakeShutdownEvent]; a legacy
    event has no such attribute. *)
Definition is_set (e : event) : result bool :=
  match e with
  | FakeShutdownEvent => isSet FakeShutdownEvent
  | ThreadingEvent flag => Ok flag
  | LegacyEvent _ => Raise AttributeError
  end.

(** [event_is_set]: try [event.is_set()], on [AttributeError] fall back
    to [event.isSet()]. *)
Definition event_is_set (e : event) : result bool :=
  match is_set e with
  | Raise AttributeError => isSet e
  | r => r
  end.

(** A worker polling its shutdown signal [n] times in a row.  None of
    the three methods mutates the object, so every poll sees [e]. *)
Fixpoint polls (n : nat) (e : event) : list (result bool) :=
  match n with
  | O => []
  | S k => event_is_set e :: polls k e
  end.

End Event.

(** ** Interpreter version flags *)

Module Version.

(** [sys.version_info]: major, minor, micro, release level, serial. *)
Record version_info : Type := mk_version {
  major : nat;
  minor : nat;
  micro : nat;
  releaselevel : string;
  serial : nat
}.

(** [sys.version_info[:2]] *)
Definition slice2 (v : version_info) : nat * nat := (major v, minor v).

(** Python's [>=] on two pairs of integers: lexicographic. *)
Definition tuple_ge (a b : nat * nat) : bool :=
  if Nat.eqb (fst a) (fst b) then Nat.leb (snd b) (snd a)
  else Nat.ltb (fst b) (fst a).

Definition PY25PLUS (v : version_info) : bool := tuple_ge (slice2 v) (1, 5)%nat.
Definition PY26PLUS (v : version_info) : bool := tuple_ge (slice2 v) (1, 6)%nat.
Definition PY32PLUS (v : version_info) : bool := tuple_ge (slice2 v) (1, 0)%nat.
Definition PY310PLUS (v : version_info) : bool := tuple_ge (slice2 v) (2, 10)%nat.

End Version.

(** ** Python floats *)

(** A Python [float] is modelled as a real number or one of the three
    special values of IEEE 754.  Arithmetic on finite values is exact:
    rounding, overflow and the sign of zero are outside this model and
    are the subject of [Float64]; what is proved here are the identities
    that do not depend on them.  The
    special values follow IEEE 754 for the operators and CPython's [math]
    module for the functions, which raises [ValueError] where the C
    library reports a domain error. *)
Module PyFloat.

Local Open Scope R_scope.

Inductive pyfloat : Type :=
| Fin (r : R)
| PInf
| NInf
| NaN.

Definition of_int (z : Z) : pyfloat := Fin (IZR z).

Definition is_nan (x : pyfloat) : bool :=
  match x with NaN => true | _ => false end.

Definition is_inf (x : pyfloat) : bool :=
  match x with PInf | NInf => true | _ => false end.

Definition is_finite (x : pyfloat) : bool :=
  match x with Fin _ => true | _ => false end.

Definition fneg (x : pyfloat) : pyfloat :=
  match x with
  | Fin r => Fin (- r)
  | PInf => NInf
  | NInf => PInf
  | NaN => NaN
  end.

(** An infinity multiplied or divided by the finite [r]. *)
Definition scale_inf (inf : pyfloat) (r : R) : pyfloat :=
  if Rlt_dec 0 r then inf
  else if Rlt_dec r 0 then fneg inf
  else NaN.

(** [x + y] *)
Definition fadd (x y : pyfloat) : pyfloat :=
  match x, y with
  | NaN, _ | _, NaN => NaN
  | Fin a, Fin b => Fin (a + b)
  | PInf, NInf | NInf, PInf => NaN
  | PInf, _ | _, PInf => PInf
  | NInf, _ | _, NInf => NInf
  end.

(** [x - y] *)
Definition fsub (x y : pyfloat) : pyfloat :=
  match x, y with
  | NaN, _ | _, NaN => NaN
  | Fin a, Fin b => Fin (a - b)
  | PInf, PInf | NInf, NInf => NaN
  | PInf, _ | _, NInf => PInf
  | NInf, _ | _, PInf => NInf
  end.

(** [x * y] *)
Definition fmul (x y : pyfloat) : pyfloat :=
  match x, y with
  | NaN, _ | _, NaN => NaN
  | Fin a, Fin b => Fin (a * b)
  | Fin a, PInf => scale_inf PInf a
  | Fin a, NInf => scale_inf NInf a
  | PInf, Fin b => scale_inf PInf b
  | NInf, Fin b => scale_inf NInf b
  | PInf, PInf | NInf, NInf => PInf
  | PInf, NInf | NInf, PInf => NInf
  end.

(** [x / y]; Python raises [ZeroDivisionError] on a zero divisor. *)
Definition fdiv (x y : pyfloat) : result pyfloat :=
  match x, y with
  | NaN, Fin b => if Req_dec_T b 0 then Raise ZeroDivisionError else Ok NaN
  | NaN, _ | _, NaN => Ok NaN
  | Fin a, Fin b => if Req_dec_T b 0 then Raise ZeroDivisionError else Ok (Fin (a / b))
  | PInf, Fin b => if Req_dec_T b 0 then Raise ZeroDivisionError else Ok (scale_inf PInf b)
  | NInf, Fin b => if Req_dec_T b 0 then Raise ZeroDivisionError else Ok (scale_inf NInf b)
  | Fin _, _ => Ok (Fin 0)
  | _, _ => Ok NaN
  end.

(** [math.radians]: CPython multiplies by the constant pi / 180. *)
Definition radians (x : pyfloat) : pyfloat := fmul x (Fin (PI / 180)).

(** [math.sin], [math.cos]: a domain error on an infinite argument. *)
Definition math_sin (x : pyfloat) : result pyfloat :=
  match x with
  | Fin r => Ok (Fin (sin r))
  | NaN => Ok NaN
  | PInf | NInf => Raise ValueError
  end.

Definition math_cos (x : pyfloat) : result pyfloat :=
  match x with
  | Fin r => Ok (Fin (cos r))
  | NaN => Ok NaN
  | PInf | NInf => Raise ValueError
  end.

(** [math.sqrt]: a domain error on a negative argument. *)
Definition math_sqrt (x : pyfloat) : result pyfloat :=
  match x with
  | Fin r => if Rlt_dec r 0 then Raise ValueError else Ok (Fin (sqrt r))
  | NaN => Ok NaN
  | PInf => Ok PInf
  | NInf => Raise ValueError
  end.

(** The two-argument arctangent on the reals, with values in (-pi, pi]. *)
Definition ratan2 (y x : R) : R :=
  if Rlt_dec 0 x then atan (y / x)
  else if Rlt_dec x 0 then
    if Rlt_dec y 0 then atan (y / x) - PI else atan (y / x) + PI
  else if Rlt_dec 0 y then PI / 2
  else if Rlt_dec y 0 then - (PI / 2)
  else 0.

(** [math.atan2]: never raises; the special cases are those of CPython's
    [m_atan2]. *)
Definition math_atan2 (y x : pyfloat) : pyfloat :=
  match y, x with
  | NaN, _ | _, NaN => NaN
  | PInf, PInf => Fin (PI / 4)
  | PInf, NInf => Fin (3 * PI / 4)
  | PInf, Fin _ => Fin (PI / 2)
  | NInf, PInf => Fin (- (PI / 4))
  | NInf, NInf => Fin (- (3 * PI / 4))
  | NInf, Fin _ => Fin (- (PI / 2))
  | Fin _, PInf => Fin 0
  | Fin b, NInf => if Rlt_dec b 0 then Fin (- PI) else Fin PI
  | Fin b, Fin a => Fin (ratan2 b a)
  end.

End PyFloat.

(** ** Great-circle distance *)

Module Geo.

Import PyFloat.
Local Open Scope py_scope.

Definition coord : Type := (pyfloat * pyfloat)%type.

(** [distance(origin, destination)], lines 656-672.  Every call of the
    source is kept, in Python's left-to-right evaluation order. *)
Definition distance (origin destination : coord) : result pyfloat :=
  let '(lat1, lon1) := origin in
  let '(lat2, lon2) := destination in
  let radius := of_int 6371 in
  let dlat := radians (fsub lat2 lat1) in
  let dlon := radians (fsub lon2 lon1) in
  h1 <- fdiv dlat (of_int 2) ;;
  s1 <- math_sin h1 ;;
  h2 <- fdiv dlat (of_int 2) ;;
  s2 <- math_sin h2 ;;
  c1 <- math_cos (radians lat1) ;;
  c2 <- math_cos (radians lat2) ;;
  k1 <- fdiv dlon (of_int 2) ;;
  t1 <- math_sin k1 ;;
  k2 <- fdiv dlon (of_int 2) ;;
  t2 <- math_sin k2 ;;
  let a := fadd (fmul s1 s2) (fmul (fmul (fmul c1 c2) t1) t2) in
  n <- math_sqrt a ;;
  m <- math_sqrt (fsub (of_int 1) a) ;;
  let c := fmul (of_int 2) (math_atan2 n m) in
  let d := fmul radius c in
  Ok d.

(** The haversine formula as the design document words it, on real
    numbers: the inputs are converted to radians first, and the powers
    and products are those of the formula. *)
Definition to_radians (deg : R) : R := (deg * PI / 180)%R.

Definition haversine_a (lat1 lon1 lat2 lon2 : R) : R :=
  (let dlat := to_radians lat2 - to_radians lat1 in
   let dlon := to_radians lon2 - to_radians lon1 in
   sin (dlat / 2) ^ 2
   + cos (to_radians lat1) * cos (to_radians lat2) * sin (dlon / 2) ^ 2)%R.

Definition haversine_km (lat1 lon1 lat2 lon2 : R) : R :=
  (let a := haversine_a lat1 lon1 lat2 lon2 in
   6371 * 2 * ratan2 (sqrt a) (sqrt (1 - a)))%R.

(** The value of the local [a] of [distance] on finite inputs, with the
    products in the order the source writes them. *)
Definition distance_a (lat1 lon1 lat2 lon2 : R) : R :=
  (let dlat := (lat2 - lat1) * (PI / 180) in
   let dlon := (lon2 - lon1) * (PI / 180) in
   sin (dlat / 2) * sin (dlat / 2)
   + cos (lat1 * (PI / 180)) * cos (lat2 * (PI / 180)) * sin (dlon / 2)
     * sin (dlon / 2))%R.

Definition all_finite (origin destination : coord) : bool :=
  is_finite (fst origin) && is_finite (snd origin)
  && is_finite (fst destination) && is_finite (snd destination).

End Geo.

(** ** Server selection *)

Module ServerSelector.

Local Open Scope Q_scope.

(** Modelled from the spec: the [Server] of the data model (the server
    list and its records are not part of the source text), as the
    server-list provider supplies it. *)
Record Server : Type := mk_server {
  server_id : Z;
  host : string;
  lat : Q;
  lon : Q;
  name : string
}.

(** Modelled from the spec: a [Server] enriched by the selector (not part
    of the source text) with its derived fields: the distance to the
    host, then the latency, which stays absent until a probe has
    succeeded. *)
Record Candidate : Type := mk_candidate {
  server : Server;
  distanceKm : Q;
  latencyMs : option Q
}.

(** Modelled from the spec: the value given as explicit server-id filter
    of [ServerSelector.select] (not part of the source text): an integer,
    or anything else, kept as the text the caller passed. *)
Inductive id_value : Type :=
| IdInt (i : Z)
| IdOther (text : string).

(** Modelled from the spec: the part of [Config] the selector reads (not
    part of the source text): the host's coordinates, the number [K] of
    closest servers to probe, the number of probes of each, and the
    optional id filter. *)
Record Config : Type := mk_config {
  host_lat : Q;
  host_lon : Q;
  closest : nat;
  probes_per_candidate : nat;
  id_filter : option id_value
}.

(** Modelled from the spec: one latency probe of [ServerSelector.select]
    (not part of the source text) that was put on the wire. *)
Record ProbeEvent : Type := mk_probe {
  probed_id : Z;
  attempt : nat
}.

Section Selector.

(** The collaborators of the selector: the distance calculator, seen
    through the kilometre figure it hands back, and the transport, which
    answers the [n]-th probe of a server with a round-trip time in
    milliseconds or fails. *)
Variable geo : Q * Q -> Q * Q -> Q.
Variable probe : Server -> nat -> option Q.

(** Modelled from the spec: the id filter of [ServerSelector.select]
    (the selector is not part of the source text).  Without a filter
    every server passes; an integer keeps the servers of that id. *)
Definition matching (cfg : Config) (servers : list Server) : list Server :=
  match id_filter cfg with
  | None => servers
  | Some (IdInt i) => filter (fun s => Z.eqb (server_id s) i) servers
  | Some (IdOther _) => []
  end.

(** Modelled from the spec: step (1) of [ServerSelector.select], the
    distance of a server to the host's own coordinates. *)
Definition enrich (cfg : Config) (s : Server) : Candidate :=
  {| server := s;
     distanceKm := geo (host_lat cfg, host_lon cfg) (lat s, lon s);
     latencyMs := None |}.

(** Modelled from the spec: step (2) of [ServerSelector.select], an
    ascending sort by distance (a stable insertion sort). *)
Fixpoint insert_by_distance (c : Candidate) (l : list Candidate) : list Candidate :=
  match l with
  | [] => [c]
  | d :: rest =>
      if Qle_bool (distanceKm c) (distanceKm d) then c :: l
      else d :: insert_by_distance c rest
  end.

(** Modelled from the spec: step (2) of [ServerSelector.select] (not part
    of the source text), the sort itself. *)
Fixpoint sort_by_distance (l : list Candidate) : list Candidate :=
  match l with
  | [] => []
  | c :: rest => insert_by_distance c (sort_by_distance rest)
  end.

(** Modelled from the spec: steps (1)-(3) of [ServerSelector.select],
    the closest [K] servers among those the filter keeps. *)
Definition candidates (cfg : Config) (servers : list Server) : list Candidate :=
  firstn (closest cfg) (sort_by_distance (map (enrich cfg) (matching cfg servers))).

(** Modelled from the spec: step (4) of [ServerSelector.select], the
    fixed number of probes of one candidate, in order. *)
Definition probe_results (cfg : Config) (c : Candidate) : list (option Q) :=
  map (probe (server c)) (seq 0 (probes_per_candidate cfg)).

(** Modelled from the spec: step (4) of [ServerSelector.select] (not part
    of the source text), the record of the probes issued for one
    candidate. *)
Definition probe_log (cfg : Config) (c : Candidate) : list ProbeEvent :=
  map (mk_probe (server_id (server c))) (seq 0 (probes_per_candidate cfg)).

(** Modelled from the spec: step (5) of [ServerSelector.select] (not part
    of the source text), the round-trip times of the probes that
    succeeded. *)
Fixpoint successes (l : list (option Q)) : list Q :=
  match l with
  | [] => []
  | Some t :: rest => t :: successes rest
  | None :: rest => successes rest
  end.

(** Modelled from the spec: step (5) of [ServerSelector.select] (not part
    of the source text), the arithmetic mean of a list of round-trip
    times. *)
Definition Qsum (l : list Q) : Q := fold_right Qplus 0 l.

Definition average (l : list Q) : Q := Qsum l / inject_Z (Z.of_nat (List.length l)).

(** Modelled from the spec: step (5) of [ServerSelector.select], the
    average over the successful probes only; a candidate none of whose
    probes succeeded keeps no latency and is thereby disqualified. *)
Definition measure (cfg : Config) (c : Candidate) : Candidate :=
  match successes (probe_results cfg c) with
  | [] => {| server := server c; distanceKm := distanceKm c; latencyMs := None |}
  | t :: rest =>
      {| server := server c; distanceKm := distanceKm c;
         latencyMs := Some (average (t :: rest)) |}
  end.

(** Modelled from the spec: the order of step (6) of
    [ServerSelector.select] (not part of the source text).
    [preferred la da lb db]: latency [la] at distance [da] is strictly
    preferred to latency [lb] at distance [db]. *)
Definition preferred (la da lb db : Q) : bool :=
  match Qcompare la lb with
  | Lt => true
  | Eq => negb (Qle_bool db da)
  | Gt => false
  end.

(** Modelled from the spec: step (6) of [ServerSelector.select], the
    qualified candidate of lowest latency, ties going to the smaller
    distance. *)
Fixpoint pick (best : option Candidate) (l : list Candidate) : option Candidate :=
  match l with
  | [] => best
  | c :: rest =>
      match latencyMs c, best with
      | None, _ => pick best rest
      | Some _, None => pick (Some c) rest
      | Some lc, Some b =>
          match latencyMs b with
          | None => pick (Some c) rest
          | Some lb =>
              if preferred lc (distanceKm c) lb (distanceKm b)
              then pick (Some c) rest
              else pick best rest
          end
      end
  end.

(** Modelled from the spec: [ServerSelector.select] (the selector is not
    part of the source text).  The outcome comes with the probes that
    were issued.  The filter's type is checked first, then the input
    list, then the match of the filter; only then are the candidates
    probed. *)
Definition select (servers : list Server) (cfg : Config)
  : list ProbeEvent * result Candidate :=
  match id_filter cfg with
  | Some (IdOther _) => ([], Raise InvalidServerIDType)
  | _ =>
      match servers with
      | [] => ([], Raise SelectionInputError)
      | _ :: _ =>
          match matching cfg servers with
          | [] => ([], Raise NoMatchedServers)
          | _ :: _ =>
              let cs := candidates cfg servers in
              let log := flat_map (probe_log cfg) cs in
              match pick None (map (measure cfg) cs) with
              | None => (log, Raise SpeedtestBestServerFailure)
              | Some best => (log, Ok best)
              end
          end
      end
  end.

End Selector.

(** A test bench after the design document's own scenario: three
    servers answering in 50, 30 and 80 ms, and a fourth, the closest of
    all, whose probes all fail.  The distance is read off the latitude. *)
Definition bench_geo (here there : Q * Q) : Q := fst there - fst here.

Definition bench_probe (s : Server) (n : nat) : option Q :=
  if Z.eqb (server_id s) 1 then Some 50
  else if Z.eqb (server_id s) 2 then Some 30
  else if Z.eqb (server_id s) 3 then Some 80
  else None.

Definition bench_servers : list Server :=
  [ mk_server 1 "a.example" 10 0 "A";
    mk_server 2 "b.example" 20 0 "B";
    mk_server 3 "c.example" 30 0 "C";
    mk_server 4 "d.example" 5 0 "D" ].

Definition bench_config (f : option id_value) : Config :=
  {| host_lat := 0; host_lon := 0; closest := 5;
     probes_per_candidate := 3; id_filter := f |}.

End ServerSelector.

(** ** Transfer workers, the timed pool and the speed calculator *)

Module Transfer.

Local Open Scope Q_scope.

(** Modelled from the spec: the two phases of a test (the measurement
    engine is not part of the source text). *)
Inductive phase : Type :=
| Download
| Upload.

(** Modelled from the spec: the budgets of [Config] that bound one phase
    (not part of the source text). *)
Record Budget : Type := mk_budget {
  testLengthSeconds : Q;
  dataBudgetBytes : Z
}.

(** Modelled from the spec: what a [TransferWorker] (not part of the
    source text) reads from its surroundings at the head of its loop: the
    time elapsed since the phase started and the shared
    [ShutdownSignal]. *)
Record snapshot : Type := mk_snapshot {
  elapsed : Q;
  shutdown_signal : bool
}.

(** Modelled from the spec: the event "time budget elapsed" of the data
    model's invariant (the worker is not part of the source text). *)
Definition time_budget_elapsed (b : Budget) (s : snapshot) : bool :=
  Qle_bool (testLengthSeconds b) (elapsed s).

(** Modelled from the spec: the event "data budget reached" of the data
    model's invariant (the worker is not part of the source text), judged
    on the bytes the worker has moved itself: the workers share no byte
    counter. *)
Definition data_budget_reached (b : Budget) (moved : Z) : bool :=
  Z.leb (dataBudgetBytes b) moved.

(** Modelled from the spec: the loop termination check of
    [TransferWorker] (the worker is not part of the source text): one of
    the three events that end a phase is observed. *)
Definition stop_observed (b : Budget) (s : snapshot) (moved : Z) : bool :=
  time_budget_elapsed b s || data_budget_reached b moved || shutdown_signal s.

(** Modelled from the spec: the answer of the [HTTPTransport]
    collaborator (not part of the source text) to one request: the bytes
    it would move, or a transport-level failure. *)
Inductive outcome : Type :=
| Moved (bytes : Z)
| TransportFailure.

(** Modelled from the spec: one turn of the loop of [TransferWorker] (not
    part of the source text) as the environment presents it: the snapshot
    read at the head and the answer the transport would give. *)
Record tick : Type := mk_tick {
  seen : snapshot;
  reply : outcome
}.

(** Modelled from the spec: what a [TransferWorker] (not part of the
    source text) does, in order: it polls for a stop event, with the
    bytes it has moved so far, or it issues a request, with the bytes the
    request moved. *)
Inductive action : Type :=
| Poll (s : snapshot) (moved : Z)
| Request (o : outcome).


(** Modelled from the spec: the bytes one request adds to the count of
    a [TransferWorker] (not part of the source text).  A download counts
    what it received; the generator of an upload stops in mid-stream
    once the data budget is reached. *)
Definition counted (ph : phase) (b : Budget) (moved offered : Z) : Z :=
  match ph with
  | Download => offered
  | Upload => Z.min offered (dataBudgetBytes b - moved)
  end.

(** Modelled from the spec: the transfer loop of [TransferWorker] (not
    part of the source text).  Before each new request the worker checks
    for a stop event; a transport failure ends the loop without a retry;
    the worker returns the bytes it accumulated.  The list of ticks is
    the part of the run the environment has scheduled. *)
Fixpoint worker_loop (ph : phase) (b : Budget) (ticks : list tick) (acc : Z)
  : Z * list action :=
  match ticks with
  | [] => (acc, [])
  | t :: rest =>
      if stop_observed b (seen t) acc then (acc, [Poll (seen t) acc])
      else
        match reply t with
        | Moved n =>
            let r := worker_loop ph b rest (acc + counted ph b acc n)%Z in
            (fst r,
             Poll (seen t) acc :: Request (Moved (counted ph b acc n)) :: snd r)
        | TransportFailure =>
            (acc, [Poll (seen t) acc; Request TransportFailure])
        end
  end.


(** The bytes the requests of a trace moved. *)
Fixpoint bytes_moved (tr : list action) : Z :=
  match tr with
  | [] => 0%Z
  | Request (Moved n) :: rest => (n + bytes_moved rest)%Z
  | _ :: rest => bytes_moved rest
  end.

(** Modelled from the spec: [Measurement] and [SpeedResult] of the data
    model (not part of the source text). *)
Record Measurement : Type := mk_measurement {
  totalBytes : Z;
  elapsedSeconds : Q
}.

Record SpeedResult : Type := mk_speed {
  bitsPerSecond : Q;
  result_phase : phase
}.

(** Modelled from the spec: the two final states of the state machine of
    [TimedWorkerPool] (not part of the source text). *)
Inductive pool_state : Type :=
| DONE (m : Measurement)
| ERROR.

(** Modelled from the spec: the traces of the workers of one phase of
    [TimedWorkerPool.run] (not part of the source text), each worker
    starting from a count of zero. *)
Definition pool_traces (ph : phase) (b : Budget) (workers : list (list tick))
  : list (list action) :=
  map (fun ticks => snd (worker_loop ph b ticks 0%Z)) workers.

Definition pool_counts (ph : phase) (b : Budget) (workers : list (list tick))
  : list Z :=
  map (fun ticks => fst (worker_loop ph b ticks 0%Z)) workers.

(** Modelled from the spec: [TimedWorkerPool.run], steps (5) and (6) and
    the [ERROR] state (the pool is not part of the source text): the
    workers' final byte counts are summed, the elapsed time is the one
    measured on the wall clock between the start and the end of the
    phase, and a phase in which no worker recorded any byte ends in
    [ERROR]. *)
Definition pool_run (ph : phase) (b : Budget) (clock_start clock_stop : Q)
  (workers : list (list tick)) : pool_state :=
  if existsb (fun n => Z.ltb 0 n) (pool_counts ph b workers)
  then DONE {| totalBytes := fold_right Z.add 0%Z (pool_counts ph b workers);
               elapsedSeconds := clock_stop - clock_start |}
  else ERROR.

(** Modelled from the spec: [SpeedCalculator.compute] (not part of the
    source text), [bitsPerSecond = (totalBytes * 8) / elapsedSeconds].
    The design document gives the quotient only; for an elapsed time of
    zero, where it has no value, the division raises. *)
Definition compute (ph : phase) (m : Measurement) : result SpeedResult :=
  if Qeq_bool (elapsedSeconds m) 0 then Raise ZeroDivisionError
  else Ok {| bitsPerSecond := (inject_Z (totalBytes m) * 8) / elapsedSeconds m;
             result_phase := ph |}.

(** A test bench: a budget of 10 seconds and 1000 bytes; a run in which
    the clock passes the time budget at the third turn, and a run in
    which the bytes moved reach the data budget first. *)
Definition bench_budget : Budget :=
  {| testLengthSeconds := 10; dataBudgetBytes := 1000 |}.

Definition bench_ticks : list tick :=
  [ mk_tick (mk_snapshot 1 false) (Moved 100);
    mk_tick (mk_snapshot 5 false) (Moved 100);
    mk_tick (mk_snapshot 11 false) (Moved 100);
    mk_tick (mk_snapshot 12 false) (Moved 100) ].

Definition bench_bulk_ticks : list tick :=
  [ mk_tick (mk_snapshot 1 false) (Moved 600);
    mk_tick (mk_snapshot 2 false) (Moved 600);
    mk_tick (mk_snapshot 3 false) (Moved 600);
    mk_tick (mk_snapshot 4 false) (Moved 600) ].

End Transfer.

(** ** The measurement session *)

Module Session.

Import ServerSelector Transfer.

(** Modelled from the spec: the state a caller of the entry points holds
    between calls (the entry points are not part of the source text): the
    selected server, absent until a selection has succeeded, and the
    phases for which a transfer was started. *)
Record Speedtest : Type := mk_speedtest {
  best : option Candidate;
  transfers : list phase
}.

Definition initial : Speedtest := {| best := None; transfers := [] |}.

(** Modelled from the spec: the calls of the produced interface (not
    part of the source text): a selection, or a throughput measurement
    of one phase. *)
Inductive call : Type :=
| GetBestServer (servers : list Server) (cfg : Config)
| Measure (ph : phase) (b : Budget) (clock_start clock_stop : Q)
    (workers : list (list tick)).

Definition is_selection (c : call) : bool :=
  match c with GetBestServer _ _ => true | Measure _ _ _ _ _ => false end.

Section Calls.

Variable geo : Q * Q -> Q * Q -> Q.
Variable probe : Server -> nat -> option Q.

(** Modelled from the spec: the precondition of a throughput measurement
    (the download and upload entry points are not part of the source
    text; the source declares [SpeedtestMissingBestServer] only).  With
    no selected server the call fails before any transfer is started; a
    pool that ends in [ERROR] surfaces as the failure of the phase. *)
Definition measure_phase (ph : phase) (b : Budget) (clock_start clock_stop : Q)
  (workers : list (list tick)) (st : Speedtest) : Speedtest * result SpeedResult :=
  match best st with
  | None => (st, Raise SpeedtestMissingBestServer)
  | Some _ =>
      ({| best := best st; transfers := transfers st ++ [ph] |},
       match pool_run ph b clock_start clock_stop workers with
       | DONE m => compute ph m
       | ERROR => Raise PoolExhausted
       end)
  end.

(** Modelled from the spec: the selection entry point (not part of the
    source text): a successful selection is remembered, a failed one
    leaves the session as it was. *)
Definition get_best_server (servers : list Server) (cfg : Config)
  (st : Speedtest) : Speedtest * result Candidate :=
  match snd (select geo probe servers cfg) with
  | Ok c => ({| best := Some c; transfers := transfers st |}, Ok c)
  | Raise e => (st, Raise e)
  end.

(** Modelled from the spec: the propagation policy for selection and
    precondition errors: the first error ends the sequence of calls and
    is handed to the caller. *)
Fixpoint run_calls (cs : list call) (st : Speedtest)
  : Speedtest * result (list SpeedResult) :=
  match cs with
  | [] => (st, Ok [])
  | GetBestServer servers cfg :: rest =>
      match get_best_server servers cfg st with
      | (st', Ok _) => run_calls rest st'
      | (st', Raise e) => (st', Raise e)
      end
  | Measure ph b t0 t1 workers :: rest =>
      match measure_phase ph b t0 t1 workers st with
      | (st', Ok r) =>
          match run_calls rest st' with
          | (st'', Ok rs) => (st'', Ok (r :: rs))
          | (st'', Raise e) => (st'', Raise e)
          end
      | (st', Raise e) => (st', Raise e)
      end
  end.

End Calls.

End Session.

(** ** Class hierarchy of the exceptions *)

Module Hierarchy.

Definition exn_eq_dec (a b : exn) : {a = b} + {a <> b}.
Proof. decide equality. Defined.

Definition exn_eqb (a b : exn) : bool :=
  if exn_eq_dec a b then true else false.

(** The classes the [class] statements of lines 306-373 declare, in the
    order of the source. *)
Definition module_classes : list exn :=
  [ SpeedtestException; SpeedtestCLIError; SpeedtestHTTPError;
    SpeedtestConfigError; SpeedtestServersError; ConfigRetrievalError;
    ServersRetrievalError; InvalidServerIDType; NoMatchedServers;
    SpeedtestMiniConnectFailure; InvalidSpeedtestMiniServer;
    ShareResultsConnectFailure; ShareResultsSubmitFailure;
    SpeedtestUploadTimeout; SpeedtestBestServerFailure;
    SpeedtestMissingBestServer ].

(** The class and its bases, nearest first, following [base_class] for at
    most [depth] steps. *)
Fixpoint mro (depth : nat) (e : exn) : list exn :=
  match depth with
  | O => [e]
  | S d =>
      e :: match base_class e with
           | Some parent => mro d parent
           | None => []
           end
  end.

(** [issubclass(e, c)] within the module: [c] is [e] or one of its
    bases.  No chain of [class] statements is longer than two. *)
Definition issubclass (e c : exn) : bool :=
  existsb (exn_eqb c) (mro 2 e).

(** An [except c:] clause catches a raised [e] when [e] is an instance of
    [c]. *)
Definition handle (c : exn) {A : Type} (m : result A) (handler : exn -> result A)
  : result A :=
  match m with
  | Ok a => Ok a
  | Raise e => if issubclass e c then handler e else Raise e
  end.

End Hierarchy.

(** ** Names bound by the version flags *)

Module Compat.

Import Version.

(** The two spellings of the element iterator (lines 288-291). *)
Inductive iter_impl : Type :=
| Element_iter
| ET_Element_getiterator.

(** [etree_iter]: bound by the [if]/[elif] of lines 288-291, and left
    unbound when neither flag holds. *)
Definition etree_iter (v : version_info) : option iter_impl :=
  if PY32PLUS v then Some Element_iter
  else if PY25PLUS v then Some ET_Element_getiterator
  else None.

(** The two spellings of the thread liveness test (lines 293-296). *)
Inductive alive_impl : Type :=
| Thread_is_alive
| Thread_isAlive.

Definition thread_is_alive (v : version_info) : alive_impl :=
  if PY26PLUS v then Thread_is_alive else Thread_isAlive.

End Compat.

(** ** Sockets *)

Module Net.

(** What a socket call can raise: [socket.error], or anything else. *)
Inductive py_error : Type :=
| SocketError (msg : string)
| OtherError (name : string).

Definition is_socket_error (e : py_error) : bool :=
  match e with SocketError _ => true | OtherError _ => false end.

Inductive completion (A : Type) : Type :=
| Returns (a : A)
| Raises (e : py_error).

Arguments Returns {A} a.
Arguments Raises {A} e.

(** What the operating system answers to one call. *)
Inductive step : Type :=
| Succeeds
| Fails (e : py_error).

(** One entry of the answer of [socket.getaddrinfo], with the fate of
    each call made on a socket for it. *)
Record addrinfo : Type := mk_addrinfo {
  sa : string * nat;
  on_socket : step;
  on_settimeout : step;
  on_bind : step;
  on_connect : step
}.

(** The calls that went through, on the socket made for the [s]-th
    entry. *)
Inductive sock_event : Type :=
| Opened (s : nat)
| TimeoutSet (s : nat) (seconds : Q)
| Bound (s : nat) (address : string * nat)
| Connected (s : nat) (peer : string * nat)
| Closed (s : nat).

(** The statements of the [try] block after [socket.socket]: the timeout
    is set unless it is the default sentinel (here [None]), the socket is
    bound when a source address is given, then connected.  The result is
    the calls that went through and the exception of the first one that
    did not. *)
Definition after_socket (timeout : option Q) (source_address : option (string * nat))
  (s : nat) (res : addrinfo) : list sock_event * option py_error :=
  let set :=
    match timeout with
    | None => ([], None)
    | Some t =>
        match on_settimeout res with
        | Succeeds => ([TimeoutSet s t], None)
        | Fails e => ([], Some e)
        end
    end in
  match set with
  | (ev1, Some e) => (ev1, Some e)
  | (ev1, None) =>
      let bound :=
        match source_address with
        | None => ([], None)
        | Some a =>
            match on_bind res with
            | Succeeds => ([Bound s a], None)
            | Fails e => ([], Some e)
            end
        end in
      match bound with
      | (ev2, Some e) => (ev1 ++ ev2, Some e)
      | (ev2, None) =>
          match on_connect res with
          | Succeeds => (ev1 ++ ev2 ++ [Connected s (sa res)], None)
          | Fails e => (ev1 ++ ev2, Some e)
          end
      end
  end.

(** The [for] loop of [create_connection] (lines 394-414) from the
    [s]-th entry on, [err] being the last [socket.error] caught.  A
    [socket.error] closes the socket, if one was made, and moves on;
    any other exception leaves the function as it is. *)
Fixpoint connect_loop (timeout : option Q) (source_address : option (string * nat))
  (s : nat) (results : list addrinfo) (err : option py_error)
  : list sock_event * completion nat :=
  match results with
  | [] =>
      match err with
      | Some e => ([], Raises e)
      | None => ([], Raises (SocketError "getaddrinfo returns an empty list"))
      end
  | res :: rest =>
      match on_socket res with
      | Fails e =>
          if is_socket_error e
          then connect_loop timeout source_address (S s) rest (Some e)
          else ([], Raises e)
      | Succeeds =>
          match after_socket timeout source_address s res with
          | (evs, None) => (Opened s :: evs, Returns s)
          | (evs, Some e) =>
              if is_socket_error e
              then
                let r := connect_loop timeout source_address (S s) rest (Some e) in
                (Opened s :: evs ++ Closed s :: fst r, snd r)
              else (Opened s :: evs, Raises e)
          end
      end
  end.

(** [create_connection(address, timeout, source_address)], lines 376-414;
    [resolved] is what [socket.getaddrinfo] does for the address, which
    is called outside the [try]. *)
Definition create_connection (resolved : completion (list addrinfo))
  (timeout : option Q) (source_address : option (string * nat))
  : list sock_event * completion nat :=
  match resolved with
  | Raises e => ([], Raises e)
  | Returns results => connect_loop timeout source_address 0 results None
  end.

(** What the [try] block raises for one entry, if anything. *)
Definition first_failure (timeout : option Q) (source_address : option (string * nat))
  (res : addrinfo) : option py_error :=
  match on_socket res with
  | Fails e => Some e
  | Succeeds => snd (after_socket timeout source_address 0 res)
  end.

Definition fails_with_socket_error (timeout : option Q)
  (source_address : option (string * nat)) (res : addrinfo) : bool :=
  match first_failure timeout source_address res with
  | Some e => is_socket_error e
  | None => false
  end.

(** The value of [err] after the loop has gone through [results], all of
    which failed. *)
Definition last_caught (timeout : option Q) (source_address : option (string * nat))
  (results : list addrinfo) (err : option py_error) : option py_error :=
  fold_left
    (fun acc res =>
       match first_failure timeout source_address res with
       | Some e => Some e
       | None => acc
       end)
    results err.

(** The sockets a sequence of calls leaves open, latest first. *)
Fixpoint track (open : list nat) (log : list sock_event) : list nat :=
  match log with
  | [] => open
  | Opened s :: rest => track (s :: open) rest
  | Closed s :: rest => track (remove Nat.eq_dec s open) rest
  | _ :: rest => track open rest
  end.

Definition is_bound (e : sock_event) : bool :=
  match e with Bound _ _ => true | _ => false end.

Definition is_timeout_set (e : sock_event) : bool :=
  match e with TimeoutSet _ _ => true | _ => false end.

(** A test bench: a host with three addresses, the first refusing the
    connection, the second failing to bind, the third accepting. *)
Definition bench_refused : addrinfo :=
  mk_addrinfo ("192.0.2.1"%string, 80%nat) Succeeds Succeeds Succeeds
    (Fails (SocketError "ECONNREFUSED")).

Definition bench_unbindable : addrinfo :=
  mk_addrinfo ("192.0.2.2"%string, 80%nat) Succeeds Succeeds
    (Fails (SocketError "EADDRNOTAVAIL")) Succeeds.

Definition bench_accepting : addrinfo :=
  mk_addrinfo ("192.0.2.3"%string, 80%nat) Succeeds Succeeds Succeeds Succeeds.

Definition bench_source : option (string * nat) := Some ("198.51.100.7"%string, 0%nat).

End Net.

(** ** HTTP connections, handlers and the opener *)

Module Http.

(** The Python values that travel through the keyword arguments. *)
Inductive pyval : Type :=
| VNone
| VNum (q : Q)
| VStr (s : string)
| VAddr (host : string) (port : Z)
| VObj (id : nat).

(** Truth value of a value in an [if]. *)
Definition truthy (v : pyval) : bool :=
  match v with
  | VNone => false
  | VNum q => negb (Qeq_bool q 0)
  | VStr s => negb (String.eqb s "")
  | VAddr _ _ => true
  | VObj _ => true
  end.

(** A [**kwargs] dictionary, seen through its lookups. *)
Definition kwargs : Type := string -> option pyval.

Definition kw_empty : kwargs := fun _ => None.

(** [kwargs[k] = v] *)
Definition kw_set (k : string) (v : pyval) (kw : kwargs) : kwargs :=
  fun k' => if String.eqb k' k then Some v else kw k'.

(** [kwargs.pop(k, default)]: the value and the dictionary without [k]. *)
Definition kw_pop (k : string) (default : pyval) (kw : kwargs) : pyval * kwargs :=
  (match kw k with Some v => v | None => default end,
   fun k' => if String.eqb k' k then None else kw k').

Inductive conn_class : Type :=
| SpeedtestHTTPConnection
| SpeedtestHTTPSConnection.

(** A connection object after [__init__]: its own attributes, and the
    keyword arguments that were handed on to the constructor of the
    standard library's class. *)
Record connection : Type := mk_connection {
  conn_class_of : conn_class;
  conn_host : string;
  conn_tunnel_host : pyval;
  conn_super_kwargs : kwargs;
  conn_source_address : pyval;
  conn_timeout : pyval
}.

(** [SpeedtestHTTPConnection.__init__] and
    [SpeedtestHTTPSConnection.__init__] (lines 421-430, 458-467), called
    with the host as only positional argument: [source_address] and
    [timeout] are popped, the rest goes to the base class. *)
Definition conn_init (c : conn_class) (host : string) (kw : kwargs) : connection :=
  let p1 := kw_pop "source_address" VNone kw in
  let p2 := kw_pop "timeout" (VNum 10) (snd p1) in
  {| conn_class_of := c;
     conn_host := host;
     conn_tunnel_host := VNone;
     conn_super_kwargs := snd p2;
     conn_source_address := fst p1;
     conn_timeout := fst p2 |}.

(** [_build_connection(connection, source_address, timeout, context)],
    lines 518-533: the callable [inner] it returns. *)
Definition _build_connection (connection_ : string -> kwargs -> connection)
  (source_address timeout context : pyval) : string -> kwargs -> connection :=
  fun host kw =>
    let kw1 := kw_set "timeout" timeout (kw_set "source_address" source_address kw) in
    let kw2 := if truthy context then kw_set "context" context kw1 else kw1 in
    connection_ host kw2.

(** The handlers [build_opener] installs; the two of the module carry
    the attributes their [__init__] stores. *)
Inductive handler : Type :=
| ProxyHandler
| SpeedtestHTTPHandler (debuglevel : Z) (source_address timeout : pyval)
| SpeedtestHTTPSHandler (debuglevel : Z) (context source_address timeout : pyval)
| HTTPDefaultErrorHandler
| HTTPRedirectHandler
| HTTPErrorProcessor.

(** [http_open] and [https_open] (lines 545-553, 569-578): the callable
    each hands to [do_open], which calls it with the host and keyword
    arguments of its own. *)
Definition connection_builder (h : handler)
  : option (string -> kwargs -> connection) :=
  match h with
  | SpeedtestHTTPHandler _ source_address timeout =>
      Some (_build_connection (conn_init SpeedtestHTTPConnection)
              source_address timeout VNone)
  | SpeedtestHTTPSHandler _ context source_address timeout =>
      Some (_build_connection (conn_init SpeedtestHTTPSConnection)
              source_address timeout context)
  | _ => None
  end.

Record opener : Type := mk_opener {
  addheaders : list (string * string);
  handlers : list handler
}.

(** The debug lines [build_opener] hands to [printer]. *)
Inductive debug_line : Type :=
| TimeoutSetTo (timeout : Q)
| BindingToSourceAddress (tuple : pyval).

(** [build_opener(source_address, timeout)], lines 583-616.
    [build_user_agent] and [printer] are defined further down in the
    file: the user agent is a parameter, and the calls of [printer] are
    returned beside the opener. *)
Definition build_opener (user_agent : string) (source_address : option string)
  (timeout : Q) : list debug_line * opener :=
  let bind :=
    match source_address with
    | Some a => negb (String.eqb a "")
    | None => false
    end in
  let source_address_tuple :=
    match source_address with
    | Some a => if bind then VAddr a 0 else VNone
    | None => VNone
    end in
  (TimeoutSetTo timeout ::
     (if bind then [BindingToSourceAddress source_address_tuple] else []),
   {| addheaders := [("User-agent"%string, user_agent)];
      handlers :=
        [ ProxyHandler;
          SpeedtestHTTPHandler 0 source_address_tuple (VNum timeout);
          SpeedtestHTTPSHandler 0 VNone source_address_tuple (VNum timeout);
          HTTPDefaultErrorHandler;
          HTTPRedirectHandler;
          HTTPErrorProcessor ] |}).

End Http.

(** ** Gzip-encoded responses *)

Module Gzip.

Definition bytes : Type := list Byte.byte.

(** A response is the chunks its successive [read(1024)] calls return;
    once they are used up [read] returns the empty string. *)
Definition response : Type := list bytes.

(** The [while 1] loop of [GzipDecodedResponse.__init__] (lines 634-638):
    the buffer so far, the reads made so far; the result adds what is
    left of the response. *)
Fixpoint read_all (resp : response) (io : bytes) (reads : nat)
  : bytes * response * nat :=
  match resp with
  | [] => (io, [], S reads)
  | chunk :: rest =>
      if Nat.eqb (List.length chunk) 0 then (io, rest, S reads)
      else read_all rest (io ++ chunk) (S reads)
  end.

(** The object after [__init__]: the buffer handed to [GzipFile] as
    [fileobj], the position of the buffer, and what the constructor did
    to the response. *)
Record GzipDecodedResponse : Type := mk_gzip {
  io : bytes;
  io_position : nat;
  response_left : response;
  reads_made : nat
}.

(** [GzipDecodedResponse.__init__(response)], lines 626-640; [gzip] tells
    whether the [gzip] module could be imported. *)
Definition gzip_init (gzip : bool) (resp : response) : result GzipDecodedResponse :=
  if negb gzip then Raise SpeedtestHTTPError
  else
    let r := read_all resp [] 0 in
    Ok {| io := fst (fst r);
          io_position := 0;
          response_left := snd (fst r);
          reads_made := snd r |}.

(** The chunks before the first empty one. *)
Fixpoint leading_chunks (resp : response) : response :=
  match resp with
  | [] => []
  | chunk :: rest =>
      if Nat.eqb (List.length chunk) 0 then [] else chunk :: leading_chunks rest
  end.

Definition bench_response : response :=
  [ [Byte.x1f; Byte.x8b]; [Byte.x08]; []; [Byte.xff] ].

End Gzip.

(** ** The print function of Python 2 *)

Module Print.

(** The objects handed to [print_]: [None], a byte string, a unicode
    string, or any other object, known by what [str] makes of it. *)
Inductive pyobj : Type :=
| PyNone
| PyStr (s : string)
| PyUnicode (s : string)
| PyOther (shown : string).

Definition is_unicode (o : pyobj) : bool :=
  match o with PyUnicode _ => true | _ => false end.

Definition is_str (o : pyobj) : bool :=
  match o with PyStr _ => true | _ => false end.

Definition is_basestring (o : pyobj) : bool := is_str o || is_unicode o.

(** [str(data)], which [print_] applies to objects that are not
    strings. *)
Definition str (data : pyobj) : pyobj :=
  match data with
  | PyNone => PyStr "None"
  | PyStr s => PyStr s
  | PyUnicode s => PyStr s
  | PyOther shown => PyStr shown
  end.

(** The object written to: whether it is a [file], and its [errors]
    attribute if it has one that is not [None]. *)
Record fileobj : Type := mk_fileobj {
  is_file : bool;
  errors : option string
}.

Inductive op : Type :=
| FpWrite (data : pyobj)
| FpFlush.

Inductive outcome : Type :=
| Printed (ops : list op)
| TypeError (msg : string).

(** The keyword arguments of a call: [file], [sep] and [end] when given,
    and the names of all others. *)
Record kwargs : Type := mk_kwargs {
  kw_file : option (option fileobj);
  kw_sep : option pyobj;
  kw_end : option pyobj;
  kw_rest : list string
}.

Definition newline_char : string := String (Ascii.ascii_of_nat 10) EmptyString.

Section Print2.

(** [unicode.encode(encoding, errors)] and [sys.stdout]. *)
Variable encode : string -> string -> string -> string.
Variable stdout : fileobj.

(** What the local [write] hands to [fp.write] for [data] (lines
    222-233). *)
Definition rendered (fp : fileobj) (data : pyobj) : pyobj :=
  let data := if is_basestring data then data else str data in
  match data with
  | PyUnicode s =>
      if is_file fp then
        let errors := match errors fp with Some e => e | None => "strict"%string end in
        PyStr (encode s "utf8" errors)
      else data
  | _ => data
  end.

(** The local [write] (lines 222-235). *)
Definition write (fp : fileobj) (data : pyobj) : list op :=
  [FpWrite (rendered fp data); FpFlush].

(** The [for i, arg in enumerate(args)] loop (lines 266-269), from index
    [i] on. *)
Fixpoint write_args (fp : fileobj) (sep : pyobj) (i : nat) (args : list pyobj)
  : list op :=
  match args with
  | [] => []
  | arg :: rest =>
      (if Nat.eqb i 0 then [] else write fp sep)
        ++ write fp arg ++ write_args fp sep (S i) rest
  end.

(** [print_] of the Python 2 branch, lines 211-270, called with the
    positional arguments [args] and the keyword arguments [kw]. *)
Definition print_ (args : list pyobj) (kw : kwargs) : outcome :=
  let fp := match kw_file kw with Some f => f | None => Some stdout end in
  match fp with
  | None => Printed []
  | Some fp =>
      let sep := match kw_sep kw with Some v => v | None => PyNone end in
      match sep with
      | PyOther _ => TypeError "sep must be None or a string"
      | _ =>
          let end_ := match kw_end kw with Some v => v | None => PyNone end in
          match end_ with
          | PyOther _ => TypeError "end must be None or a string"
          | _ =>
              match kw_rest kw with
              | _ :: _ => TypeError "invalid keyword arguments to print()"
              | [] =>
                  let want_unicode :=
                    is_unicode sep || is_unicode end_ || existsb is_unicode args in
                  let newline :=
                    if want_unicode then PyUnicode newline_char
                    else PyStr newline_char in
                  let space :=
                    if want_unicode then PyUnicode " " else PyStr " " in
                  let sep := match sep with PyNone => space | _ => sep end in
                  let end_ := match end_ with PyNone => newline | _ => end_ end in
                  Printed (write_args fp sep 0 args ++ write fp end_)
              end
          end
      end
  end.

(** The file a call writes to: the [file] keyword, [sys.stdout] without
    one. *)
Definition target (kw : kwargs) : option fileobj :=
  match kw_file kw with Some f => f | None => Some stdout end.

(** The value of [want_unicode] after the loop of lines 251-255. *)
Definition want_unicode (args : list pyobj) (kw : kwargs) : bool :=
  match kw_sep kw with Some v => is_unicode v | None => false end
  || match kw_end kw with Some v => is_unicode v | None => false end
  || existsb is_unicode args.

(** The separator and the terminator in force at the final loop. *)
Definition effective_sep (args : list pyobj) (kw : kwargs) : pyobj :=
  match kw_sep kw with
  | None | Some PyNone =>
      if want_unicode args kw then PyUnicode " " else PyStr " "
  | Some v => v
  end.

Definition effective_end (args : list pyobj) (kw : kwargs) : pyobj :=
  match kw_end kw with
  | None | Some PyNone =>
      if want_unicode args kw then PyUnicode newline_char else PyStr newline_char
  | Some v => v
  end.

(** The data of the writes of a run, in order. *)
Fixpoint payload (ops : list op) : list pyobj :=
  match ops with
  | [] => []
  | FpWrite d :: rest => d :: payload rest
  | FpFlush :: rest => payload rest
  end.

(** [sep] between consecutive elements of [args]. *)
Fixpoint intersperse (sep : pyobj) (args : list pyobj) : list pyobj :=
  match args with
  | [] => []
  | [a] => [a]
  | a :: rest => a :: sep :: intersperse sep rest
  end.

End Print2.

Definition bench_encode (text encoding errors : string) : string := text.

Definition bench_stdout : fileobj := {| is_file := true; errors := None |}.

End Print.

(** ** Python floats as IEEE 754 binary64 *)

(** A Python [float] is a C [double].  The operators are those of IEEE
    754 binary64, which the primitive floats compute; the functions of
    the [math] module are CPython's wrappers around the C library, whose
    [sin], [cos] and [atan2] are parameters of the model. *)
Module Float64.

Import Stdlib.Floats.Floats.
Local Open Scope float_scope.

(** [degToRad] and [Py_MATH_PI] of [mathmodule.c]. *)
Definition degToRad : float := 0x1.1df46a2529d39p-6.
Definition Py_MATH_PI : float := 0x1.921fb54442d18p+1.

(** [x / y] on floats: a zero divisor raises. *)
Definition float_div (x y : float) : result float :=
  if y =? 0 then Raise ZeroDivisionError else Ok (x / y).

(** [math.radians] *)
Definition radians (x : float) : float := x * degToRad.

(** [math_1] of [mathmodule.c] for a function that cannot overflow: a
    NaN out of a number, or an infinity out of a finite number, is a
    domain error. *)
Definition math_1 (func : float -> float) (x : float) : result float :=
  let r := func x in
  if is_nan r && negb (is_nan x) then Raise ValueError
  else if is_infinity r && is_finite x then Raise ValueError
  else Ok r.

(** [copysign(x, y)] *)
Definition copysign (x y : float) : float :=
  if get_sign y then - abs x else abs x.

(** [m_atan2] of [mathmodule.c]: the special cases are decided before
    the C library is asked. *)
Definition m_atan2 (atan2 : float -> float -> float) (y x : float) : float :=
  if is_nan x || is_nan y then nan
  else if is_infinity y then
    if is_infinity x then
      if copysign 1 x =? 1 then copysign (0.25 * Py_MATH_PI) y
      else copysign (0.75 * Py_MATH_PI) y
    else copysign (0.5 * Py_MATH_PI) y
  else if is_infinity x || (y =? 0) then
    if copysign 1 x =? 1 then copysign 0 y
    else copysign Py_MATH_PI y
  else atan2 y x.

(** [math_2] of [mathmodule.c]: a NaN out of two numbers is a domain
    error, an infinity out of two finite numbers a range error. *)
Definition math_2 (func : float -> float -> float) (x y : float) : result float :=
  let r := func x y in
  if is_nan r && negb (is_nan x) && negb (is_nan y) then Raise ValueError
  else if is_infinity r && is_finite x && is_finite y then Raise OverflowError
  else Ok r.

Section Libm.

(** The [sin], [cos] and [atan2] of the C library. *)
Variable libm_sin : float -> float.
Variable libm_cos : float -> float.
Variable libm_atan2 : float -> float -> float.

Definition math_sin (x : float) : result float := math_1 libm_sin x.
Definition math_cos (x : float) : result float := math_1 libm_cos x.
Definition math_sqrt (x : float) : result float := math_1 sqrt x.
Definition math_atan2 (y x : float) : result float :=
  math_2 (m_atan2 libm_atan2) y x.

Local Open Scope py_scope.

(** [distance(origin, destination)], lines 656-672, on binary64. *)
Definition distance (origin destination : float * float) : result float :=
  let '(lat1, lon1) := origin in
  let '(lat2, lon2) := destination in
  let radius := 6371 in
  let dlat := radians (lat2 - lat1) in
  let dlon := radians (lon2 - lon1) in
  h1 <- float_div dlat 2 ;;
  s1 <- math_sin h1 ;;
  h2 <- float_div dlat 2 ;;
  s2 <- math_sin h2 ;;
  c1 <- math_cos (radians lat1) ;;
  c2 <- math_cos (radians lat2) ;;
  k1 <- float_div dlon 2 ;;
  t1 <- math_sin k1 ;;
  k2 <- float_div dlon 2 ;;
  t2 <- math_sin k2 ;;
  let a := s1 * s2 + c1 * c2 * t1 * t2 in
  n <- math_sqrt a ;;
  m <- math_sqrt (1 - a) ;;
  at2 <- math_atan2 n m ;;
  let c := 2 * at2 in
  let d := radius * c in
  Ok d.

End Libm.

(** What the C standard (Annex F) asks of [sin] and [cos] at the special
    values, and that they return a number for a number. *)
Definition conforming (f : float -> float) : Prop :=
  f nan = nan /\
  (forall x, is_infinity x = true -> f x = nan) /\
  (forall x, is_finite x = true -> is_finite (f x) = true).

(** The values that are not numbers: NaN and the infinities. *)
Definition sf_special (s : spec_float) : bool :=
  match s with S754_nan | S754_infinity _ => true | _ => false end.

(** The four angles handed to [sin] and [cos]. *)
Definition angles (origin destination : float * float) : list float :=
  [ radians (fst destination - fst origin) / 2;
    radians (fst origin);
    radians (fst destination);
    radians (snd destination - snd origin) / 2 ].

Definition all_finite (origin destination : float * float) : bool :=
  is_finite (fst origin) && is_finite (snd origin)
  && is_finite (fst destination) && is_finite (snd destination).

(** A stand-in for the C library that is right at the special values and
    at the angles of the points (82, 0) and (-82, -180), where it returns
    what glibc returns. *)
Definition bench_sin (x : float) : float :=
  if is_finite x then
    if x =? -0x1.6e6127ff9d971p+0 then -0x1.fb046a930947ap-1
    else if x =? -0x1.921fb54442d18p+0 then -1
    else 0
  else nan.

Definition bench_cos (x : float) : float :=
  if is_finite x then
    if abs x =? 0x1.6e6127ff9d971p+0 then 0x1.1d06c968d9e1ap-3
    else 1
  else nan.

Definition bench_atan2 (y x : float) : float := 0.

End Float64.

(** * Properties *)

(** ** Shutdown events *)

Module EventFacts.

Import Event.

Lemma polls_length (n : nat) (e : event) : List.length (polls n e) = n.
Proof. induction n as [|n IH]; simpl; [reflexivity | now rewrite IH]. Qed.

(** A real [threading.Event] is read faithfully, so the stub is the only
    object whose polls are blind to a request. *)
Lemma event_is_set_threading (flag : bool) :
  event_is_set (ThreadingEvent flag) = Ok flag.
Proof. reflexivity. Qed.

Lemma event_is_set_legacy (flag : bool) :
  event_is_set (LegacyEvent flag) = Ok flag.
Proof. reflexivity. Qed.

(** C9: [FakeShutdownEvent.isSet()] and its alias [is_set] return [False],
    [event_is_set] of a [FakeShutdownEvent] returns [False], and a worker
    that polls such a signal any number of times reads [False] at every
    poll: it never observes a shutdown request. *)
Theorem fake_shutdown_event_never_set :
  isSet FakeShutdownEvent = Ok false /\
  is_set FakeShutdownEvent = Ok false /\
  event_is_set FakeShutdownEvent = Ok false /\
  forall n : nat, polls n FakeShutdownEvent = repeat (Ok false) n.
Proof.
  repeat split.
  intro n; induction n as [|n IH].
  - reflexivity.
  - cbn [polls repeat]. rewrite IH. reflexivity.
Qed.

End EventFacts.

(** ** Interpreter version flags *)

Module VersionFacts.

Import Version.

Lemma tuple_ge_major_above (a b : nat * nat) :
  (fst b < fst a)%nat -> tuple_ge a b = true.
Proof.
  intro H. unfold tuple_ge.
  destruct (Nat.eqb_spec (fst a) (fst b)) as [E|_].
  - lia.
  - now apply Nat.ltb_lt.
Qed.

Lemma tuple_ge_floor (a : nat * nat) (m : nat) :
  (m <= fst a)%nat -> tuple_ge a (m, 0%nat) = true.
Proof.
  intro H. unfold tuple_ge. cbn [fst snd].
  destruct (Nat.eqb_spec (fst a) m) as [E|N].
  - reflexivity.
  - apply Nat.ltb_lt. lia.
Qed.

(** The names promise 2.5, 2.6, 3.2 and 3.10; the thresholds are lower. *)
Example py27_counts_as_py32 :
  PY32PLUS (mk_version 2 7 18 "final" 0) = true.
Proof. reflexivity. Qed.

Example py30_counts_as_py310 :
  PY310PLUS (mk_version 3 0 0 "final" 0) = true.
Proof. reflexivity. Qed.

Example py29_is_not_py310 :
  PY310PLUS (mk_version 2 9 0 "final" 0) = false.
Proof. reflexivity. Qed.

(** C10: the four flags compare [sys.version_info[:2]] with (1, 5),
    (1, 6), (1, 0) and (2, 10); [PY32PLUS] holds for every version whose
    major component is at least 1, and all four flags hold for every
    version whose major component is at least 3, whatever the minor. *)
Theorem version_flag_thresholds (v : version_info) :
  PY25PLUS v = tuple_ge (major v, minor v) (1, 5)%nat /\
  PY26PLUS v = tuple_ge (major v, minor v) (1, 6)%nat /\
  PY32PLUS v = tuple_ge (major v, minor v) (1, 0)%nat /\
  PY310PLUS v = tuple_ge (major v, minor v) (2, 10)%nat /\
  ((1 <= major v)%nat -> PY32PLUS v = true) /\
  ((3 <= major v)%nat ->
   PY25PLUS v = true /\ PY26PLUS v = true /\
   PY32PLUS v = true /\ PY310PLUS v = true).
Proof.
  repeat match goal with |- _ /\ _ => split end; try reflexivity.
  - intro H. apply tuple_ge_floor. exact H.
  - intro H. unfold PY25PLUS, PY26PLUS, PY32PLUS, PY310PLUS, slice2.
    repeat split; apply tuple_ge_major_above; cbn [fst snd]; lia.
Qed.

Lemma version_flag_thresholds_witness :
  PY32PLUS (mk_version 1 0 0 "final" 0) = true /\
  PY310PLUS (mk_version 3 4 0 "final" 0) = true.
Proof.
  split.
  - apply (proj1 (proj2 (proj2 (proj2 (proj2
      (version_flag_thresholds (mk_version 1 0 0 "final" 0))))))).
    simpl. lia.
  - apply (proj2 (proj2 (proj2 (proj2 (proj2
      (version_flag_thresholds (mk_version 3 4 0 "final" 0))))))).
    simpl. lia.
Defined.

End VersionFacts.

(** ** Great-circle distance *)

Module GeoFacts.

Import PyFloat Geo.
Local Open Scope R_scope.

Lemma fdiv_two (x : pyfloat) :
  fdiv x (of_int 2) =
  Ok (match x with Fin a => Fin (a / 2) | other => other end).
Proof.
  unfold fdiv, of_int, scale_inf.
  destruct x; destruct (Req_dec_T 2 0) as [E|_]; try lra; try reflexivity;
    destruct (Rlt_dec 0 2); try lra; reflexivity.
Qed.

Lemma radians_fin (r : R) : radians (Fin r) = Fin (r * (PI / 180)).
Proof. reflexivity. Qed.

Lemma deg_positive : 0 < PI / 180.
Proof. pose proof PI_RGT_0. lra. Qed.

Lemma radians_special (x : pyfloat) :
  is_finite x = false -> radians x = x.
Proof.
  pose proof deg_positive as P.
  destruct x; intro H; try discriminate H; unfold radians, fmul, scale_inf;
    try reflexivity; destruct (Rlt_dec 0 (PI / 180)); try lra; reflexivity.
Qed.

(** The quantity under the square roots stays between 0 and 1, whatever
    the four angles. *)
Lemma distance_a_bounds (lat1 lon1 lat2 lon2 : R) :
  0 <= distance_a lat1 lon1 lat2 lon2 <= 1.
Proof.
  unfold distance_a. cbv zeta.
  set (p := lat1 * (PI / 180)). set (q := lat2 * (PI / 180)).
  set (y := (lon2 - lon1) * (PI / 180) / 2).
  replace ((lat2 - lat1) * (PI / 180) / 2) with ((q - p) / 2)
    by (unfold p, q; field).
  pose proof (cos_2a_sin ((q - p) / 2)) as D.
  replace (2 * ((q - p) / 2)) with (q - p) in D by field.
  rewrite cos_minus in D.
  pose proof (COS_bound (q - p)) as B1. rewrite cos_minus in B1.
  pose proof (COS_bound (q + p)) as B2. rewrite cos_plus in B2.
  pose proof (SIN_bound y) as B3.
  set (s := sin ((q - p) / 2)) in *.
  set (cp := cos p) in *. set (cq := cos q) in *.
  set (sp := sin p) in *. set (sq := sin q) in *.
  set (t := sin y) in *.
  assert (T0 : 0 <= t * t) by nra.
  assert (T1 : t * t <= 1) by nra.
  assert (E : s * s = (1 - (cq * cp + sq * sp)) / 2) by lra.
  replace (s * s + cp * cq * t * t) with (s * s + cp * cq * (t * t)) by ring.
  rewrite E. split; nra.
Qed.

(** [distance] on finite inputs: no call raises and the result is the
    finite number the source's expression denotes. *)
Lemma distance_finite (lat1 lon1 lat2 lon2 : R) :
  distance (Fin lat1, Fin lon1) (Fin lat2, Fin lon2) =
  Ok (Fin (6371 * (2 * ratan2 (sqrt (distance_a lat1 lon1 lat2 lon2))
                              (sqrt (1 - distance_a lat1 lon1 lat2 lon2))))).
Proof.
  pose proof (distance_a_bounds lat1 lon1 lat2 lon2) as [L U].
  unfold distance. cbn [fsub]. rewrite !radians_fin, !fdiv_two.
  cbn [bind math_sin math_cos fmul fadd of_int fsub].
  fold (distance_a lat1 lon1 lat2 lon2) in *.
  unfold math_sqrt.
  change (sin ((lat2 - lat1) * (PI / 180) / 2) *
          sin ((lat2 - lat1) * (PI / 180) / 2) +
          cos (lat1 * (PI / 180)) * cos (lat2 * (PI / 180)) *
          sin ((lon2 - lon1) * (PI / 180) / 2) *
          sin ((lon2 - lon1) * (PI / 180) / 2))
    with (distance_a lat1 lon1 lat2 lon2).
  destruct (Rlt_dec (distance_a lat1 lon1 lat2 lon2) 0) as [N|_]; [lra|].
  cbn [bind].
  destruct (Rlt_dec (1 - distance_a lat1 lon1 lat2 lon2) 0) as [N|_]; [lra|].
  reflexivity.
Qed.




(** Unfolds one call of [distance] on special values. *)
Ltac run_distance :=
  unfold distance; cbn [fsub fst snd];
  rewrite ?radians_fin, ?radians_special by reflexivity;
  rewrite ?fdiv_two;
  cbn [bind math_sin math_cos math_sqrt math_atan2 fmul fadd fsub of_int].


(** Over the reals, where nothing is rounded, the expression of
    [distance] is the haversine formula of the design document on the
    radian-converted inputs, for an Earth radius of 6371 km.  The run of
    the code on binary64 departs from it, see [Float64Facts]. *)
Lemma distance_is_haversine (lat1 lon1 lat2 lon2 : R) :
  distance (Fin lat1, Fin lon1) (Fin lat2, Fin lon2) =
  Ok (Fin (haversine_km lat1 lon1 lat2 lon2)).
Proof.
  rewrite distance_finite. unfold haversine_km. cbv zeta.
  assert (E : haversine_a lat1 lon1 lat2 lon2 = distance_a lat1 lon1 lat2 lon2).
  { unfold haversine_a, distance_a, to_radians. cbv zeta.
    replace ((lat2 * PI / 180 - lat1 * PI / 180) / 2)
      with ((lat2 - lat1) * (PI / 180) / 2) by field.
    replace ((lon2 * PI / 180 - lon1 * PI / 180) / 2)
      with ((lon2 - lon1) * (PI / 180) / 2) by field.
    replace (lat1 * PI / 180) with (lat1 * (PI / 180)) by field.
    replace (lat2 * PI / 180) with (lat2 * (PI / 180)) by field.
    ring. }
  rewrite E. do 2 f_equal. ring.
Qed.

(** The claim C6 fails as it is worded: a NaN latitude goes through every
    call of [distance] and comes back as NaN, with no exception. *)
Lemma distance_nan_is_silent :
  all_finite (NaN, Fin 0) (Fin 0, Fin 0) = false /\
  distance (NaN, Fin 0) (Fin 0, Fin 0) = Ok NaN /\
  forall e : exn, distance (NaN, Fin 0) (Fin 0, Fin 0) <> Raise e.
Proof.
  assert (E : distance (NaN, Fin 0) (Fin 0, Fin 0) = Ok NaN)
    by (run_distance; reflexivity).
  split; [reflexivity|]. split; [exact E|].
  intros e H. rewrite E in H. discriminate H.
Qed.

(** The same holds for two longitudes at the same infinity. *)
Lemma distance_equal_infinite_longitudes :
  distance (Fin 0, PInf) (Fin 0, PInf) = Ok NaN.
Proof. run_distance; reflexivity. Qed.

End GeoFacts.

(** ** Distance on binary64 *)

Module Float64Facts.

Import Stdlib.Floats.Floats.
Import Float64.
Local Open Scope float_scope.

Lemma SFcompare_refl (s : spec_float) :
  s <> S754_nan -> SFcompare s s = Some Eq.
Proof.
  destruct s as [b|b| |b m e]; intro H; cbn; try congruence.
  - now destruct b.
  - destruct b; rewrite Z.compare_refl; rewrite Pos.compare_cont_refl; reflexivity.
Qed.

Lemma is_nan_spec (x : float) :
  is_nan x = match Prim2SF x with S754_nan => true | _ => false end.
Proof.
  unfold is_nan. rewrite eqb_spec. unfold SFeqb.
  destruct (Prim2SF x) as [b|b| |b m e] eqn:E; try reflexivity;
    rewrite SFcompare_refl by discriminate; reflexivity.
Qed.

Lemma is_infinity_spec (x : float) :
  is_infinity x = match Prim2SF x with S754_infinity _ => true | _ => false end.
Proof.
  unfold is_infinity. rewrite eqb_spec, abs_spec.
  destruct (Prim2SF x) as [b|b| |b m e]; reflexivity.
Qed.

Lemma is_finite_spec (x : float) :
  is_finite x = negb (sf_special (Prim2SF x)).
Proof.
  unfold is_finite. rewrite is_nan_spec, is_infinity_spec.
  destruct (Prim2SF x) as [b|b| |b m e]; reflexivity.
Qed.

Lemma is_nan_eq (x : float) : is_nan x = true -> x = nan.
Proof.
  rewrite is_nan_spec. intro H. apply Prim2SF_inj.
  destruct (Prim2SF x); try discriminate H. reflexivity.
Qed.

(** Every float is NaN, an infinity or a number. *)
Lemma float_cases (x : float) :
  x = nan \/ is_infinity x = true \/ is_finite x = true.
Proof.
  destruct (is_nan x) eqn:N; [left; now apply is_nan_eq|].
  destruct (is_infinity x) eqn:I; [right; now left|].
  right. right. unfold is_finite. now rewrite N, I.
Qed.

Lemma infinity_is_not_finite (x : float) :
  is_infinity x = true -> is_finite x = false /\ is_nan x = false.
Proof.
  rewrite is_finite_spec, is_nan_spec, is_infinity_spec.
  destruct (Prim2SF x); intro H; try discriminate H; split; reflexivity.
Qed.

Lemma sub_special (x y : float) :
  is_finite x = false \/ is_finite y = false -> is_finite (x - y) = false.
Proof.
  rewrite !is_finite_spec, sub_spec.
  destruct (Prim2SF x) as [b|b| |b m e], (Prim2SF y) as [b'|b'| |b' m' e'];
    cbn; intros [H|H]; try discriminate H; try reflexivity;
    destruct b, b'; reflexivity.
Qed.

Lemma degToRad_positive :
  exists m e, Prim2SF degToRad = S754_finite false m e.
Proof. do 2 eexists. vm_compute. reflexivity. Qed.

Lemma two_positive : exists m e, Prim2SF 2 = S754_finite false m e.
Proof. do 2 eexists. vm_compute. reflexivity. Qed.

(** Converting to radians keeps NaN a NaN and an infinity an infinity. *)
Lemma radians_nonfinite (x : float) :
  (is_finite x = false -> is_finite (radians x) = false) /\
  (is_infinity x = true -> is_infinity (radians x) = true).
Proof.
  unfold radians. rewrite !is_finite_spec, !is_infinity_spec, mul_spec.
  destruct degToRad_positive as (m & e & ->).
  destruct (Prim2SF x) as [b|b| |b' m' e']; cbn; split; intro H;
    try discriminate H; reflexivity.
Qed.

Lemma half_special (x : float) :
  (is_finite x = false -> is_finite (x / 2) = false) /\
  (is_infinity x = true -> is_infinity (x / 2) = true).
Proof.
  rewrite !is_finite_spec, !is_infinity_spec, div_spec.
  destruct two_positive as (m & e & ->).
  destruct (Prim2SF x) as [b|b| |b' m' e']; cbn; split; intro H;
    try discriminate H; reflexivity.
Qed.

Lemma mul_nan (x : float) : nan * x = nan /\ x * nan = nan.
Proof.
  split; apply Prim2SF_inj; rewrite mul_spec;
    change (Prim2SF nan) with S754_nan; destruct (Prim2SF x); reflexivity.
Qed.

Lemma add_nan (x : float) : nan + x = nan /\ x + nan = nan.
Proof.
  split; apply Prim2SF_inj; rewrite add_spec;
    change (Prim2SF nan) with S754_nan; destruct (Prim2SF x); reflexivity.
Qed.

(** What [math.sin] and [math.cos] do with a conforming C function: an
    infinite angle is a domain error, a NaN comes back as NaN, a number
    gives a number. *)
Lemma math_1_conforming (f : float -> float) (x : float) :
  conforming f ->
  (is_infinity x = true -> math_1 f x = Raise ValueError) /\
  (x = nan -> math_1 f x = Ok nan) /\
  (is_finite x = true -> exists r, math_1 f x = Ok r).
Proof.
  intros (Hn & Hi & Hf). unfold math_1. cbv zeta. split; [|split].
  - intro H. rewrite (Hi x H).
    destruct (infinity_is_not_finite x H) as [_ N]. now rewrite N.
  - intros ->. now rewrite Hn.
  - intro H. specialize (Hf x H). exists (f x).
    unfold is_finite in Hf. apply negb_true_iff, orb_false_iff in Hf.
    destruct Hf as [N I]. now rewrite N, I.
Qed.

Lemma math_1_value_error (f : float -> float) (x : float) :
  (exists r, math_1 f x = Ok r) \/ math_1 f x = Raise ValueError.
Proof.
  unfold math_1. cbv zeta.
  destruct (is_nan (f x) && negb (is_nan x)); [now right|].
  destruct (is_infinity (f x) && is_finite x); [now right|].
  left. now exists (f x).
Qed.

Lemma float_div_two (x : float) : float_div x 2 = Ok (x / 2).
Proof. reflexivity. Qed.

(** The class of an angle decides what [math.sin] or [math.cos] does
    with it. *)
Lemma angle_cases (f : float -> float) (x : float) :
  conforming f ->
  (is_infinity x = true /\ math_1 f x = Raise ValueError) \/
  (is_infinity x = false /\ is_finite x = false /\ math_1 f x = Ok nan) \/
  (is_infinity x = false /\ is_finite x = true /\ exists r, math_1 f x = Ok r).
Proof.
  intro C. destruct (math_1_conforming f x C) as (Hi & Hn & Hf).
  destruct (float_cases x) as [N|[I|F]].
  - right. left. subst x. repeat split. now apply Hn.
  - left. split; [exact I|now apply Hi].
  - right. right. split; [|split; [exact F|now apply Hf]].
    unfold is_finite in F. apply negb_true_iff, orb_false_iff in F. tauto.
Qed.

(** An input with a coordinate that is not a number has an angle that is
    not a number. *)
Lemma invalid_input_invalid_angle (lat1 lon1 lat2 lon2 : float) :
  all_finite (lat1, lon1) (lat2, lon2) = false ->
  is_finite (radians lat1) = false \/ is_finite (radians lat2) = false \/
  is_finite (radians (lon2 - lon1) / 2) = false.
Proof.
  unfold all_finite. cbn [fst snd]. intro H.
  destruct (is_finite lat1) eqn:E1; [|left; now apply radians_nonfinite].
  destruct (is_finite lat2) eqn:E2; [|right; left; now apply radians_nonfinite].
  right. right. apply half_special, radians_nonfinite, sub_special.
  destruct (is_finite lon1), (is_finite lon2); try discriminate H; tauto.
Qed.

Section Distance64.

Variable libm_sin : float -> float.
Variable libm_cos : float -> float.
Variable libm_atan2 : float -> float -> float.
Hypothesis sin_conforming : conforming libm_sin.
Hypothesis cos_conforming : conforming libm_cos.

(** C6, amended: on an input with a coordinate that is NaN or infinite,
    [distance] raises [ValueError] exactly when one of the four angles it
    hands to [sin] and [cos] is infinite, as it is for an infinite
    latitude, and in every other case returns NaN and signals nothing. *)
Theorem distance_on_invalid_input (origin destination : float * float) :
  all_finite origin destination = false ->
  distance libm_sin libm_cos libm_atan2 origin destination =
    (if existsb is_infinity (angles origin destination)
     then Raise ValueError else Ok nan) /\
  (is_infinity (fst origin) || is_infinity (fst destination) = true ->
   distance libm_sin libm_cos libm_atan2 origin destination = Raise ValueError).
Proof.
  destruct origin as [lat1 lon1], destination as [lat2 lon2]. intro H.
  assert (E : distance libm_sin libm_cos libm_atan2 (lat1, lon1) (lat2, lon2) =
              (if existsb is_infinity (angles (lat1, lon1) (lat2, lon2))
               then Raise ValueError else Ok nan)).
  { pose proof (invalid_input_invalid_angle lat1 lon1 lat2 lon2 H) as Hinv.
    unfold distance, angles, math_sin, math_cos. cbv beta iota zeta.
    cbn [fst snd existsb]. rewrite !float_div_two. cbn [bind].
    destruct (angle_cases libm_sin (radians (lat2 - lat1) / 2) sin_conforming)
      as [[I1 ->]|[(I1 & F1 & ->)|(I1 & F1 & s & ->)]]; rewrite I1;
      [reflexivity| |];
      (destruct (angle_cases libm_cos (radians lat1) cos_conforming)
        as [[I2 ->]|[(I2 & F2 & ->)|(I2 & F2 & c1 & ->)]]; rewrite I2;
       [reflexivity| |]);
      (destruct (angle_cases libm_cos (radians lat2) cos_conforming)
        as [[I3 ->]|[(I3 & F3 & ->)|(I3 & F3 & c2 & ->)]]; rewrite I3;
       [reflexivity| |]);
      (destruct (angle_cases libm_sin (radians (lon2 - lon1) / 2) sin_conforming)
        as [[I4 ->]|[(I4 & F4 & ->)|(I4 & F4 & t & ->)]]; rewrite I4;
       [reflexivity| |]);
      cbn [bind orb];
      try (exfalso; destruct Hinv as [Hx|[Hx|Hx]]; congruence);
      repeat first [ rewrite (proj1 (mul_nan _)) | rewrite (proj2 (mul_nan _))
                   | rewrite (proj1 (add_nan _)) | rewrite (proj2 (add_nan _)) ];
      reflexivity. }
  split; [exact E|].
  intro Hlat. rewrite E. unfold angles. cbn [fst snd existsb] in Hlat |- *.
  apply orb_true_iff in Hlat. destruct Hlat as [Hl|Hl];
    apply radians_nonfinite in Hl; rewrite Hl;
    rewrite ?orb_true_r; reflexivity.
Qed.

End Distance64.

(** C5, where the code departs from it: for the points (82, 0) and
    (-82, -180), near the two ends of a diameter, and with the values the
    C library returns for their four angles, the local [a] is rounded to
    the float just above 1, [1 - a] is negative and [math.sqrt(1 - a)]
    raises [ValueError]: no distance is returned. *)
Theorem distance_raises_near_antipodes
  (libm_sin libm_cos : float -> float) (libm_atan2 : float -> float -> float) :
  libm_sin (-0x1.6e6127ff9d971p+0) = -0x1.fb046a930947ap-1 ->
  libm_cos (0x1.6e6127ff9d971p+0) = 0x1.1d06c968d9e1ap-3 ->
  libm_cos (-0x1.6e6127ff9d971p+0) = 0x1.1d06c968d9e1ap-3 ->
  libm_sin (-0x1.921fb54442d18p+0) = -1 ->
  distance libm_sin libm_cos libm_atan2 (82, 0) (-82, -180) = Raise ValueError.
Proof.
  intros S1 C1 C2 S2.
  unfold distance, math_sin, math_cos. cbv beta iota zeta.
  rewrite !float_div_two. cbn [bind].
  change (radians (-82 - 82) / 2) with (-0x1.6e6127ff9d971p+0).
  change (radians 82) with (0x1.6e6127ff9d971p+0).
  change (radians (-82)) with (-0x1.6e6127ff9d971p+0).
  change (radians (-180 - 0) / 2) with (-0x1.921fb54442d18p+0).
  unfold math_1 at 1 2 3 4 5 6. cbv zeta. rewrite S1, C1, C2, S2.
  reflexivity.
Qed.

Lemma distance_raises_near_antipodes_witness :
  distance bench_sin bench_cos bench_atan2 (82, 0) (-82, -180) = Raise ValueError.
Proof.
  apply (distance_raises_near_antipodes bench_sin bench_cos bench_atan2);
    reflexivity.
Defined.

(** A difference of two finite latitudes that overflows has the same
    end: the angle is infinite and [math.sin] raises. *)
Lemma distance_raises_on_overflow
  (libm_sin libm_cos : float -> float) (libm_atan2 : float -> float -> float) :
  conforming libm_sin ->
  all_finite (0x1.1ccf385ebc8ap+1023, 0) (-0x1.1ccf385ebc8ap+1023, 0) = true /\
  distance libm_sin libm_cos libm_atan2
    (0x1.1ccf385ebc8ap+1023, 0) (-0x1.1ccf385ebc8ap+1023, 0) = Raise ValueError.
Proof.
  intro C. split; [reflexivity|].
  unfold distance, math_sin. cbv beta iota zeta. rewrite !float_div_two.
  cbn [bind].
  change (radians (-0x1.1ccf385ebc8ap+1023 - 0x1.1ccf385ebc8ap+1023) / 2)
    with neg_infinity.
  now rewrite (proj1 (math_1_conforming libm_sin neg_infinity C) eq_refl).
Qed.

Lemma bench_sin_conforming : conforming bench_sin.
Proof.
  unfold conforming, bench_sin. split; [reflexivity|]. split.
  - intros x H. destruct (infinity_is_not_finite x H) as [F _]. now rewrite F.
  - intros x H. rewrite H.
    destruct (x =? -0x1.6e6127ff9d971p+0); [reflexivity|].
    destruct (x =? -0x1.921fb54442d18p+0); reflexivity.
Qed.

Lemma bench_cos_conforming : conforming bench_cos.
Proof.
  unfold conforming, bench_cos. split; [reflexivity|]. split.
  - intros x H. destruct (infinity_is_not_finite x H) as [F _]. now rewrite F.
  - intros x H. rewrite H.
    destruct (abs x =? 0x1.6e6127ff9d971p+0); reflexivity.
Qed.

Lemma distance_on_invalid_input_witness :
  distance bench_sin bench_cos bench_atan2 (nan, 0) (0, 0) = Ok nan /\
  distance bench_sin bench_cos bench_atan2 (0, infinity) (0, infinity) = Ok nan /\
  distance bench_sin bench_cos bench_atan2 (0, 0) (neg_infinity, 0) =
    Raise ValueError.
Proof.
  split; [|split].
  - apply (proj1 (distance_on_invalid_input bench_sin bench_cos bench_atan2
                    bench_sin_conforming bench_cos_conforming
                    (nan, 0) (0, 0) eq_refl)).
  - apply (proj1 (distance_on_invalid_input bench_sin bench_cos bench_atan2
                    bench_sin_conforming bench_cos_conforming
                    (0, infinity) (0, infinity) eq_refl)).
  - apply (proj2 (distance_on_invalid_input bench_sin bench_cos bench_atan2
                    bench_sin_conforming bench_cos_conforming
                    (0, 0) (neg_infinity, 0) eq_refl)).
    reflexivity.
Defined.

End Float64Facts.

(** ** Server selection *)

Module SelectorFacts.

Import ServerSelector.
Local Open Scope Q_scope.

Lemma preferred_true (la da lb db : Q) :
  preferred la da lb db = true -> la < lb \/ (la == lb /\ da < db).
Proof.
  unfold preferred. destruct (Qcompare_spec la lb) as [E|L|G]; intro H.
  - right. split; [exact E|].
    apply negb_true_iff in H.
    destruct (Qlt_le_dec da db) as [Hlt|Hle]; [exact Hlt|].
    apply Qle_bool_iff in Hle. congruence.
  - left. exact L.
  - discriminate H.
Qed.

Lemma preferred_false (la da lb db : Q) :
  preferred la da lb db = false -> lb < la \/ (lb == la /\ db <= da).
Proof.
  unfold preferred. destruct (Qcompare_spec la lb) as [E|L|G]; intro H.
  - right. split; [symmetry; exact E|].
    apply negb_false_iff in H. now apply Qle_bool_iff.
  - discriminate H.
  - left. exact G.
Qed.

(** What [pick] returns: a qualified element of its input that no other
    qualified element beats, on latency first and on distance second. *)
Lemma pick_spec (l : list Candidate) :
  forall best : option Candidate,
    (forall b, best = Some b -> latencyMs b <> None) ->
    (exists x, (best = Some x \/ In x l) /\ latencyMs x <> None) ->
    exists r lr,
      pick best l = Some r /\ latencyMs r = Some lr /\
      (best = Some r \/ In r l) /\
      forall x lx, best = Some x \/ In x l -> latencyMs x = Some lx ->
        lr < lx \/ (lr == lx /\ distanceKm r <= distanceKm x).
Proof.
  induction l as [|c rest IH]; intros best Hb Hex.
  - destruct Hex as (x & [Hx|[]] & Hq). subst best.
    destruct (latencyMs x) as [lx|] eqn:El; [|congruence].
    exists x, lx. cbn [pick]. repeat split; auto.
    intros y ly [Hy|[]] Ely. injection Hy as <-.
    rewrite El in Ely. injection Ely as <-. right. split; [reflexivity|apply Qle_refl].
  - cbn [pick]. destruct (latencyMs c) as [lc|] eqn:Elc.
    + destruct best as [b|].
      * destruct (latencyMs b) as [lb|] eqn:Elb; [|exfalso; eapply Hb; eauto].
        destruct (preferred lc (distanceKm c) lb (distanceKm b)) eqn:Ep.
        -- destruct (IH (Some c)) as (r & lr & Hp & Hl & Hin & Hmin).
           { intros ? [= <-]. congruence. }
           { exists c. split; [now left|congruence]. }
           exists r, lr. repeat split; auto.
           { destruct Hin as [[= <-]|Hin]; right; [now left|now right]. }
           intros x lx Hx Elx.
           destruct Hx as [[= <-]|[<-|Hx]].
           ++ assert (Hc := Hmin c lc (or_introl eq_refl) Elc).
              rewrite Elb in Elx. injection Elx as <-.
              apply preferred_true in Ep.
              destruct Hc as [Hc|[Hc1 Hc2]], Ep as [Ep|[Ep1 Ep2]].
              ** left. eapply Qlt_trans; eauto.
              ** left. rewrite <- Ep1. exact Hc.
              ** left. rewrite Hc1. exact Ep.
              ** right. split; [rewrite Hc1; exact Ep1|].
                 eapply Qle_trans; [exact Hc2|]. now apply Qlt_le_weak.
           ++ apply (Hmin c lx); auto.
           ++ apply (Hmin x lx); auto.
        -- destruct (IH (Some b)) as (r & lr & Hp & Hl & Hin & Hmin).
           { intros ? [= <-]. congruence. }
           { exists b. split; [now left|congruence]. }
           exists r, lr. repeat split; auto.
           { destruct Hin as [Hin|Hin]; [now left|right; now right]. }
           intros x lx Hx Elx.
           destruct Hx as [Hx|[<-|Hx]].
           ++ apply (Hmin x lx); auto.
           ++ assert (Hbm := Hmin b lb (or_introl eq_refl) Elb).
              rewrite Elc in Elx. injection Elx as <-.
              apply preferred_false in Ep.
              destruct Hbm as [Hc|[Hc1 Hc2]], Ep as [Ep|[Ep1 Ep2]].
              ** left. eapply Qlt_trans; eauto.
              ** left. rewrite <- Ep1. exact Hc.
              ** left. rewrite Hc1. exact Ep.
              ** right. split; [rewrite Hc1; exact Ep1|].
                 eapply Qle_trans; eauto.
           ++ apply (Hmin x lx); auto.
      * destruct (IH (Some c)) as (r & lr & Hp & Hl & Hin & Hmin).
        { intros ? [= <-]. congruence. }
        { exists c. split; [now left|congruence]. }
        exists r, lr. repeat split; auto.
        { destruct Hin as [[= <-]|Hin]; right; [now left|now right]. }
        intros x lx Hx Elx.
        destruct Hx as [Hx|[<-|Hx]]; [discriminate Hx| |].
        -- apply (Hmin c lx); auto.
        -- apply (Hmin x lx); auto.
    + destruct (IH best Hb) as (r & lr & Hp & Hl & Hin & Hmin).
      { destruct Hex as (x & [Hx|[<-|Hx]] & Hq); [exists x; auto|congruence|exists x; auto]. }
      exists r, lr. repeat split; auto.
      { destruct Hin as [Hin|Hin]; [now left|right; now right]. }
      intros x lx Hx Elx.
      destruct Hx as [Hx|[<-|Hx]]; [|congruence|]; apply (Hmin x lx); auto.
Qed.

(** Without a qualified element [pick] has nothing to return. *)
Lemma pick_none (l : list Candidate) :
  (forall x, In x l -> latencyMs x = None) -> pick None l = None.
Proof.
  induction l as [|c rest IH]; intro H; cbn [pick]; [reflexivity|].
  rewrite (H c (or_introl eq_refl)). apply IH.
  intros x Hx. apply H. now right.
Qed.

Section SelectorTheory.

Variable geo : Q * Q -> Q * Q -> Q.
Variable probe : Server -> nat -> option Q.

Lemma measure_latency (cfg : Config) (c : Candidate) :
  latencyMs (measure probe cfg c) =
  match successes (probe_results probe cfg c) with
  | [] => None
  | t :: rest => Some (average (t :: rest))
  end.
Proof. unfold measure. destruct (successes _); reflexivity. Qed.


Lemma matching_nil (cfg : Config) : matching cfg [] = [].
Proof. unfold matching. destruct (id_filter cfg) as [[i|t]|]; reflexivity. Qed.


(** Past its three guards [select] probes the candidates and picks. *)
Lemma select_past_guards (cfg : Config) (servers : list Server) :
  (forall text, id_filter cfg <> Some (IdOther text)) ->
  matching cfg servers <> [] ->
  select geo probe servers cfg =
  (flat_map (probe_log cfg) (candidates geo cfg servers),
   match pick None (map (measure probe cfg) (candidates geo cfg servers)) with
   | None => Raise SpeedtestBestServerFailure
   | Some best => Ok best
   end).
Proof.
  intros Hty Hm. unfold select.
  destruct servers as [|s rest]; [now rewrite matching_nil in Hm|].
  destruct (matching cfg (s :: rest)) as [|m ms] eqn:Em; [congruence|].
  destruct (id_filter cfg) as [[i|t]|] eqn:Ef.
  - destruct (pick None _); reflexivity.
  - exfalso. now apply (Hty t).
  - destruct (pick None _); reflexivity.
Qed.

Lemma filter_typed_of_match (cfg : Config) (servers : list Server) :
  matching cfg servers <> [] ->
  forall text, id_filter cfg <> Some (IdOther text).
Proof.
  unfold matching. intros H text E. rewrite E in H. now apply H.
Qed.

(** With a qualified candidate at hand [select] returns a server. *)
Lemma select_succeeds (servers : list Server) (cfg : Config) :
  matching cfg servers <> [] ->
  (exists c, In c (candidates geo cfg servers) /\
             successes (probe_results probe cfg c) <> []) ->
  exists best, snd (select geo probe servers cfg) = Ok best.
Proof.
  intros Hm (c0 & Hin0 & Hq0).
  rewrite (select_past_guards _ _ (filter_typed_of_match _ _ Hm) Hm). cbn [snd].
  destruct (pick_spec (map (measure probe cfg) (candidates geo cfg servers)) None)
    as (r & lr & Hp & _).
  { intros b Hb. discriminate Hb. }
  { exists (measure probe cfg c0). split.
    - right. now apply in_map.
    - rewrite measure_latency. destruct (successes _); congruence. }
  rewrite Hp. now exists r.
Qed.


Lemma matching_no_id (cfg : Config) (servers : list Server) (i : Z) :
  id_filter cfg = Some (IdInt i) ->
  (forall s, In s servers -> server_id s <> i) ->
  matching cfg servers = [].
Proof.
  intros Ef Hno. unfold matching. rewrite Ef.
  induction servers as [|s rest IH]; [reflexivity|].
  cbn [filter]. destruct (Z.eqb_spec (server_id s) i) as [E|_].
  - exfalso. apply (Hno s); [now left|exact E].
  - apply IH. intros s' Hs'. apply Hno. now right.
Qed.

(** C2: [select] fails with [InvalidServerIDType], and has issued no
    probe, when the id filter is not an integer; with the selection-input
    error when the server list is empty; with [NoMatchedServers] when no
    server has the id of the filter; with [SpeedtestBestServerFailure]
    when no candidate has a successful probe; the four errors are
    distinct, and in every other case [select] returns a server. *)
Theorem select_failure_cases (servers : list Server) (cfg : Config) :
  NoDup [InvalidServerIDType; SelectionInputError; NoMatchedServers;
         SpeedtestBestServerFailure] /\
  (forall text, id_filter cfg = Some (IdOther text) ->
     select geo probe servers cfg = ([], Raise InvalidServerIDType)) /\
  ((forall text, id_filter cfg <> Some (IdOther text)) ->
     servers = [] ->
     select geo probe servers cfg = ([], Raise SelectionInputError)) /\
  (forall i, id_filter cfg = Some (IdInt i) ->
     servers <> [] ->
     (forall s, In s servers -> server_id s <> i) ->
     select geo probe servers cfg = ([], Raise NoMatchedServers)) /\
  (matching cfg servers <> [] ->
     (forall c, In c (candidates geo cfg servers) ->
        successes (probe_results probe cfg c) = []) ->
     snd (select geo probe servers cfg) = Raise SpeedtestBestServerFailure) /\
  (matching cfg servers <> [] ->
     (exists c, In c (candidates geo cfg servers) /\
        successes (probe_results probe cfg c) <> []) ->
     exists best, snd (select geo probe servers cfg) = Ok best).
Proof.
  split; [|split; [|split; [|split; [|split]]]].
  - repeat constructor; cbn [In]; intuition discriminate.
  - intros text Ef. unfold select. rewrite Ef. reflexivity.
  - intros Hty ->. unfold select.
    destruct (id_filter cfg) as [[i|t]|] eqn:Ef; try reflexivity.
    exfalso. now apply (Hty t).
  - intros i Ef Hne Hno. unfold select. rewrite Ef.
    destruct servers as [|s rest]; [congruence|].
    now rewrite (matching_no_id cfg (s :: rest) i Ef Hno).
  - intros Hm Hall.
    rewrite (select_past_guards _ _ (filter_typed_of_match _ _ Hm) Hm). cbn [snd].
    rewrite pick_none; [reflexivity|].
    intros x Hx. apply in_map_iff in Hx. destruct Hx as (c & <- & Hc).
    rewrite measure_latency, (Hall c Hc). reflexivity.
  - intros Hm Hex. apply select_succeeds; assumption.
Qed.

End SelectorTheory.

(** The design document's scenario: the 30 ms server wins, although the
    server whose probes all fail is the closest. *)
Example bench_selects_30ms :
  exists c l,
    snd (select bench_geo bench_probe bench_servers (bench_config None)) = Ok c /\
    server_id (server c) = 2%Z /\ latencyMs c = Some l /\ l == 30.
Proof. do 2 eexists. repeat split. Qed.

Example bench_closest_is_disqualified :
  map (fun c => server_id (server c))
      (candidates bench_geo (bench_config None) bench_servers) = [4; 1; 2; 3]%Z /\
  successes (probe_results bench_probe (bench_config None)
               (enrich bench_geo (bench_config None)
                  (mk_server 4 "d.example" 5 0 "D"))) = [].
Proof. split; reflexivity. Qed.


Lemma select_failure_cases_witness :
  select bench_geo bench_probe bench_servers
    (bench_config (Some (IdOther "fastest"))) = ([], Raise InvalidServerIDType) /\
  select bench_geo bench_probe [] (bench_config None) =
    ([], Raise SelectionInputError) /\
  select bench_geo bench_probe bench_servers (bench_config (Some (IdInt 9))) =
    ([], Raise NoMatchedServers) /\
  snd (select bench_geo bench_probe bench_servers (bench_config (Some (IdInt 4)))) =
    Raise SpeedtestBestServerFailure /\
  exists best,
    snd (select bench_geo bench_probe bench_servers (bench_config None)) = Ok best.
Proof.
  split; [|split; [|split; [|split]]].
  - apply (proj1 (proj2 (select_failure_cases bench_geo bench_probe bench_servers
                           (bench_config (Some (IdOther "fastest")))))
             "fastest"%string).
    reflexivity.
  - apply (proj1 (proj2 (proj2 (select_failure_cases bench_geo bench_probe []
                                  (bench_config None))))).
    + intros text H. discriminate H.
    + reflexivity.
  - apply (proj1 (proj2 (proj2 (proj2
             (select_failure_cases bench_geo bench_probe bench_servers
                (bench_config (Some (IdInt 9))))))) 9%Z).
    + reflexivity.
    + discriminate.
    + intros s Hs. cbn in Hs.
      repeat (destruct Hs as [<-|Hs]; [discriminate|]). destruct Hs.
  - apply (proj1 (proj2 (proj2 (proj2 (proj2
             (select_failure_cases bench_geo bench_probe bench_servers
                (bench_config (Some (IdInt 4))))))))).
    + vm_compute. discriminate.
    + intros c Hc. vm_compute in Hc. destruct Hc as [<-|[]]. reflexivity.
  - apply (proj2 (proj2 (proj2 (proj2 (proj2
             (select_failure_cases bench_geo bench_probe bench_servers
                (bench_config None))))))).
    + vm_compute. discriminate.
    + exists (enrich bench_geo (bench_config None)
                (mk_server 2 "b.example" 20 0 "B")).
      split; [vm_compute; tauto | vm_compute; discriminate].
Defined.

End SelectorFacts.

(** ** Transfer loop and speed calculator *)

Module TransferFacts.

Import Transfer.
Local Open Scope Q_scope.





(** What a worker returns is what it started from plus the bytes its
    requests moved. *)
Lemma worker_returns_the_bytes_moved (ph : phase) (b : Budget) (ticks : list tick) :
  forall acc : Z,
    fst (worker_loop ph b ticks acc) =
    (acc + bytes_moved (snd (worker_loop ph b ticks acc)))%Z.
Proof.
  induction ticks as [|t rest IH]; intro acc; cbn [worker_loop].
  - cbn. lia.
  - destruct (stop_observed b (seen t) acc).
    + cbn. lia.
    + destruct (reply t) as [n|]; cbn [fst snd bytes_moved].
      * rewrite IH. lia.
      * lia.
Qed.



Example bench_worker_run :
  worker_loop Download bench_budget bench_ticks 0 =
  (200%Z,
   [ Poll (mk_snapshot 1 false) 0; Request (Moved 100);
     Poll (mk_snapshot 5 false) 100; Request (Moved 100);
     Poll (mk_snapshot 11 false) 200 ]).
Proof. reflexivity. Qed.

(** The data budget ends a run too: a download stops at the first check
    after its count has reached the budget, an upload stops sending in
    the middle of the request that reaches it. *)
Example bench_data_budget_stops_download :
  worker_loop Download bench_budget bench_bulk_ticks 0 =
  (1200%Z,
   [ Poll (mk_snapshot 1 false) 0; Request (Moved 600);
     Poll (mk_snapshot 2 false) 600; Request (Moved 600);
     Poll (mk_snapshot 3 false) 1200 ]).
Proof. reflexivity. Qed.

Example bench_data_budget_stops_upload :
  worker_loop Upload bench_budget bench_bulk_ticks 0 =
  (1000%Z,
   [ Poll (mk_snapshot 1 false) 0; Request (Moved 600);
     Poll (mk_snapshot 2 false) 600; Request (Moved 400);
     Poll (mk_snapshot 3 false) 1000 ]).
Proof. reflexivity. Qed.


Lemma pool_total_is_the_bytes_moved (ph : phase) (b : Budget)
  (workers : list (list tick)) :
  fold_right Z.add 0%Z (pool_counts ph b workers) =
  fold_right Z.add 0%Z (map bytes_moved (pool_traces ph b workers)).
Proof.
  unfold pool_counts, pool_traces.
  induction workers as [|ticks rest IH]; [reflexivity|].
  cbn [map fold_right]. rewrite IH, worker_returns_the_bytes_moved. lia.
Qed.

Lemma compute_defined (ph : phase) (m : Measurement) :
  ~ elapsedSeconds m == 0 ->
  compute ph m =
  Ok {| bitsPerSecond := (inject_Z (totalBytes m) * 8) / elapsedSeconds m;
        result_phase := ph |}.
Proof.
  intro H. unfold compute.
  destruct (Qeq_bool (elapsedSeconds m) 0) eqn:E; [|reflexivity].
  apply Qeq_bool_iff in E. contradiction.
Qed.

(** C7: [compute] returns the figure which, times the elapsed seconds of
    the measurement, is eight times its bytes, and has no value to return
    for an elapsed time of zero.  On the measurement of a pool the bytes
    are those the workers' requests moved and the seconds are those
    measured between the start and the end of the phase, not the time
    budget: a phase that ran past its budget reports less than the budget
    would give.  The figure is a function of the measurement alone: equal
    measurements give equal figures, call after call. *)
Theorem compute_uses_measured_time (ph : phase) (m : Measurement) :
  (~ elapsedSeconds m == 0 ->
   exists r, compute ph m = Ok r /\ result_phase r = ph /\
             bitsPerSecond r * elapsedSeconds m == inject_Z (totalBytes m) * 8) /\
  (elapsedSeconds m == 0 -> compute ph m = Raise ZeroDivisionError) /\
  (forall b t0 t1 workers,
     pool_run ph b t0 t1 workers = DONE m ->
     elapsedSeconds m = t1 - t0 /\
     totalBytes m =
       fold_right Z.add 0%Z (map bytes_moved (pool_traces ph b workers)) /\
     (0 < testLengthSeconds b -> testLengthSeconds b < t1 - t0 ->
      (0 < totalBytes m)%Z ->
      exists r, compute ph m = Ok r /\
                bitsPerSecond r < inject_Z (totalBytes m) * 8 / testLengthSeconds b)) /\
  (forall m', totalBytes m' = totalBytes m ->
     elapsedSeconds m' == elapsedSeconds m ->
     match compute ph m', compute ph m with
     | Ok r', Ok r => bitsPerSecond r' == bitsPerSecond r
     | Raise e', Raise e => e' = e
     | _, _ => False
     end).
Proof.
  split; [|split; [|split]].
  - intro H. rewrite (compute_defined ph m H). eexists. split; [reflexivity|].
    split; [reflexivity|]. cbn [bitsPerSecond]. field. exact H.
  - intro H. unfold compute. apply Qeq_bool_iff in H. now rewrite H.
  - intros b t0 t1 workers H. unfold pool_run in H.
    destruct (existsb _ _); [|discriminate H]. injection H as <-.
    cbn [elapsedSeconds totalBytes]. split; [reflexivity|].
    split; [apply pool_total_is_the_bytes_moved|].
    intros Hb Hlate Hpos.
    set (total := fold_right Z.add 0%Z (pool_counts ph b workers)) in *.
    assert (He : 0 < t1 - t0) by (eapply Qlt_trans; eauto).
    rewrite compute_defined;
      [|cbn [elapsedSeconds]; intro E; rewrite E in He; now apply (Qlt_irrefl 0)].
    eexists. split; [reflexivity|]. cbn [bitsPerSecond elapsedSeconds totalBytes].
    assert (Hx : 0 < inject_Z total * 8).
    { apply Qmult_lt_0_compat; [|reflexivity].
      change 0 with (inject_Z 0). now rewrite <- Zlt_Qlt. }
    apply Qlt_shift_div_r; [exact He|].
    assert (Hq : 0 < inject_Z total * 8 / testLengthSeconds b).
    { apply Qlt_shift_div_l; [exact Hb|]. now rewrite Qmult_0_l. }
    setoid_replace (inject_Z total * 8)
      with (inject_Z total * 8 / testLengthSeconds b * testLengthSeconds b) at 1
      by (field; intro E; rewrite E in Hb; now apply (Qlt_irrefl 0)).
    apply Qmult_lt_l; assumption.
  - intros m' Hb He. unfold compute. rewrite Hb.
    destruct (Qeq_bool (elapsedSeconds m') 0) eqn:E',
             (Qeq_bool (elapsedSeconds m) 0) eqn:E.
    + reflexivity.
    + apply Qeq_bool_iff in E'. apply Qeq_bool_neq in E. rewrite He in E'.
      contradiction.
    + apply Qeq_bool_iff in E. apply Qeq_bool_neq in E'. rewrite He in E'.
      contradiction.
    + cbn [bitsPerSecond]. now rewrite He.
Qed.

(** A phase in which no worker moved a byte ends in [ERROR], not in a
    measurement of zero bytes. *)
Lemma pool_exhaustion (ph : phase) (b : Budget) (t0 t1 : Q)
  (workers : list (list tick)) :
  (forall n, In n (pool_counts ph b workers) -> (n <= 0)%Z) ->
  pool_run ph b t0 t1 workers = ERROR.
Proof.
  intro H. unfold pool_run.
  destruct (existsb (fun n => Z.ltb 0 n) (pool_counts ph b workers)) eqn:E;
    [|reflexivity].
  apply existsb_exists in E. destruct E as (n & Hin & Hn).
  apply Z.ltb_lt in Hn. specialize (H n Hin). lia.
Qed.

Example bench_speed :
  exists m r,
    pool_run Download bench_budget 100 (225 # 2) [bench_ticks; bench_ticks]
      = DONE m /\
    compute Download m = Ok r /\ bitsPerSecond r == 256.
Proof. do 2 eexists. repeat split. Qed.

Example bench_dead_pool :
  pool_run Download bench_budget 0 10
    [ [mk_tick (mk_snapshot 1 false) TransportFailure];
      [mk_tick (mk_snapshot 1 false) TransportFailure] ] = ERROR.
Proof. reflexivity. Qed.

Lemma compute_uses_measured_time_witness :
  (exists r, compute Upload (mk_measurement 1000 (25 # 2)) = Ok r /\
             result_phase r = Upload /\
             bitsPerSecond r * (25 # 2) == inject_Z 1000 * 8) /\
  match compute Upload (mk_measurement 1000 (50 # 4)),
        compute Upload (mk_measurement 1000 (25 # 2)) with
  | Ok r', Ok r => bitsPerSecond r' == bitsPerSecond r
  | Raise e', Raise e => e' = e
  | _, _ => False
  end.
Proof.
  split.
  - apply (proj1 (compute_uses_measured_time Upload (mk_measurement 1000 (25 # 2)))).
    discriminate.
  - apply (proj2 (proj2 (proj2
      (compute_uses_measured_time Upload (mk_measurement 1000 (25 # 2)))))
      (mk_measurement 1000 (50 # 4))); reflexivity.
Defined.

End TransferFacts.

(** ** The measurement session *)

Module SessionFacts.

Import ServerSelector Transfer Session.

Section SessionTheory.

Variable geo : Q * Q -> Q * Q -> Q.
Variable probe : Server -> nat -> option Q.

Lemma measure_phase_unselected (st : Speedtest) (ph : phase) (b : Budget)
  (t0 t1 : Q) (workers : list (list tick)) :
  best st = None ->
  measure_phase ph b t0 t1 workers st = (st, Raise SpeedtestMissingBestServer).
Proof. intro H. unfold measure_phase. now rewrite H. Qed.

(** C8: in a sequence of calls where a throughput measurement comes
    before any selection, the measurement fails with
    [SpeedtestMissingBestServer], the error is what the caller gets, and
    the session is left as it was: no transfer has been started. *)
Theorem measure_before_selection (st : Speedtest) (pre post : list call)
  (ph : phase) (b : Budget) (t0 t1 : Q) (workers : list (list tick)) :
  best st = None ->
  (forall c, In c pre -> is_selection c = false) ->
  measure_phase ph b t0 t1 workers st = (st, Raise SpeedtestMissingBestServer) /\
  run_calls geo probe (pre ++ Measure ph b t0 t1 workers :: post) st =
    (st, Raise SpeedtestMissingBestServer) /\
  transfers (fst (run_calls geo probe (pre ++ Measure ph b t0 t1 workers :: post) st)) =
    transfers st.
Proof.
  intros Hb Hpre.
  assert (E : run_calls geo probe (pre ++ Measure ph b t0 t1 workers :: post) st =
              (st, Raise SpeedtestMissingBestServer)).
  { destruct pre as [|c pre].
    - cbn [app run_calls]. now rewrite measure_phase_unselected.
    - pose proof (Hpre c (or_introl eq_refl)) as Hc.
      destruct c as [servers cfg|ph' b' t0' t1' workers']; [discriminate Hc|].
      cbn [app run_calls]. now rewrite measure_phase_unselected. }
  split; [now apply measure_phase_unselected|].
  split; [exact E|]. now rewrite E.
Qed.

End SessionTheory.

Example bench_session_in_order :
  exists st rs,
    run_calls bench_geo bench_probe
      [ GetBestServer bench_servers (bench_config None);
        Measure Download bench_budget 0 10 [bench_ticks] ] initial = (st, Ok rs) /\
    transfers st = [Download] /\ List.length rs = 1%nat.
Proof. do 2 eexists. repeat split. Qed.

Example bench_failed_selection_surfaces :
  run_calls bench_geo bench_probe
    [ GetBestServer bench_servers (bench_config (Some (IdInt 4)));
      Measure Download bench_budget 0 10 [bench_ticks] ] initial =
  (initial, Raise SpeedtestBestServerFailure).
Proof. reflexivity. Qed.

Lemma measure_before_selection_witness :
  run_calls bench_geo bench_probe
    [ Measure Upload bench_budget 0 10 [bench_ticks];
      GetBestServer bench_servers (bench_config None) ] initial =
  (initial, Raise SpeedtestMissingBestServer).
Proof.
  apply (proj1 (proj2
    (measure_before_selection bench_geo bench_probe initial []
       [GetBestServer bench_servers (bench_config None)]
       Upload bench_budget 0 10 [bench_ticks] eq_refl
       (fun c (H : In c []) => match H with end)))).
Defined.

End SessionFacts.

(** ** Class hierarchy of the exceptions *)

Module HierarchyFacts.

Import Hierarchy.

(** X1: an [except SpeedtestException] clause catches every exception class
    the module declares and none of the builtin ones;
    [except SpeedtestHTTPError] catches exactly that class and the two
    retrieval errors. *)
Theorem speedtest_exception_is_the_root (e : exn) :
  (In e module_classes ->
   issubclass e SpeedtestException = true /\
   forall (A : Type) (handler : exn -> result A),
     handle SpeedtestException (Raise e) handler = handler e) /\
  (In e [AttributeError; ValueError; ZeroDivisionError] ->
   forall (A : Type) (handler : exn -> result A),
     handle SpeedtestException (Raise e) handler = Raise e) /\
  (issubclass e SpeedtestHTTPError = true <->
   In e [SpeedtestHTTPError; ConfigRetrievalError; ServersRetrievalError]).
Proof.
  split; [|split].
  - intro H. destruct e; cbn in H; try (split; reflexivity);
      exfalso; intuition discriminate.
  - intro H. destruct e; cbn in H; try reflexivity;
      exfalso; intuition discriminate.
  - destruct e; cbn; split; intro H; try reflexivity; try discriminate H;
      try tauto; intuition discriminate.
Qed.

Lemma speedtest_exception_is_the_root_witness :
  handle SpeedtestException (Raise ConfigRetrievalError)
    (fun _ => Ok 0%nat) = Ok 0%nat /\
  handle SpeedtestException (Raise ValueError) (fun _ => Ok 0%nat) =
    Raise ValueError.
Proof.
  split.
  - apply (proj1 (speedtest_exception_is_the_root ConfigRetrievalError)).
    cbn. tauto.
  - apply (proj1 (proj2 (speedtest_exception_is_the_root ValueError))).
    cbn. tauto.
Defined.

End HierarchyFacts.

(** ** Names bound by the version flags *)

Module CompatFacts.

Import Version Compat.

Lemma tuple_ge_spec (a b : nat * nat) :
  tuple_ge a b = true <->
  (fst b < fst a)%nat \/ (fst a = fst b /\ (snd b <= snd a)%nat).
Proof.
  unfold tuple_ge. destruct (Nat.eqb_spec (fst a) (fst b)) as [E|N].
  - rewrite Nat.leb_le. lia.
  - rewrite Nat.ltb_lt. lia.
Qed.

Lemma py25_implies_py32 (v : version_info) :
  PY25PLUS v = true -> PY32PLUS v = true.
Proof.
  unfold PY25PLUS, PY32PLUS, slice2.
  rewrite !tuple_ge_spec. cbn [fst snd]. lia.
Qed.

(** X2: the flags are nested: a version that counts as 3.10 counts as 2.6,
    one that counts as 2.6 counts as 2.5, and one that counts as 2.5
    counts as 3.2. *)
Theorem version_flags_nested (v : version_info) :
  (PY310PLUS v = true -> PY26PLUS v = true) /\
  (PY26PLUS v = true -> PY25PLUS v = true) /\
  (PY25PLUS v = true -> PY32PLUS v = true).
Proof.
  unfold PY310PLUS, PY26PLUS, PY25PLUS, PY32PLUS, slice2.
  rewrite !tuple_ge_spec. cbn [fst snd]. lia.
Qed.

Lemma version_flags_nested_witness :
  PY32PLUS (mk_version 1 5 2 "final" 0) = true.
Proof.
  apply (proj2 (proj2 (version_flags_nested (mk_version 1 5 2 "final" 0)))).
  reflexivity.
Defined.

(** X3: the [elif PY25PLUS] branch of lines 288-291 is dead: [etree_iter] is
    never bound to [ET_Element.getiterator]; it is [ET.Element.iter]
    from major version 1 on and stays unbound exactly for major
    version 0. *)
Theorem etree_iter_never_getiterator (v : version_info) :
  etree_iter v <> Some ET_Element_getiterator /\
  (etree_iter v = Some Element_iter <-> (1 <= major v)%nat) /\
  (etree_iter v = None <-> major v = 0%nat).
Proof.
  unfold etree_iter.
  destruct (PY32PLUS v) eqn:E32.
  - unfold PY32PLUS, slice2 in E32. apply tuple_ge_spec in E32. cbn [fst snd] in E32.
    split; [discriminate|]. split; split; intro H; try reflexivity;
      try discriminate H; lia.
  - assert (E25 : PY25PLUS v = false).
    { destruct (PY25PLUS v) eqn:E; [|reflexivity].
      apply py25_implies_py32 in E. congruence. }
    rewrite E25.
    assert (M : major v = 0%nat).
    { destruct (major v) eqn:Em; [reflexivity|].
      assert (T : PY32PLUS v = true).
      { unfold PY32PLUS, slice2. apply tuple_ge_spec. cbn [fst snd]. lia. }
      congruence. }
    split; [discriminate|]. split; split; intro H; try reflexivity;
      try discriminate H; lia.
Qed.

Lemma etree_iter_never_getiterator_witness :
  etree_iter (mk_version 2 5 4 "final" 0) = Some Element_iter /\
  major (mk_version 0 9 1 "final" 0) = 0%nat.
Proof.
  split.
  - apply (proj2 (proj1 (proj2
      (etree_iter_never_getiterator (mk_version 2 5 4 "final" 0))))).
    simpl. lia.
  - apply (proj1 (proj2 (proj2
      (etree_iter_never_getiterator (mk_version 0 9 1 "final" 0))))).
    reflexivity.
Defined.

(** X4: [thread_is_alive] is [Thread.isAlive] only below version 1.6: every
    interpreter from 1.6 on, 2.4 and 2.5 included, gets
    [Thread.is_alive]. *)
Theorem thread_is_alive_choice (v : version_info) :
  (thread_is_alive v = Thread_isAlive <->
   major v = 0%nat \/ (major v = 1%nat /\ (minor v < 6)%nat)) /\
  ((2 <= major v)%nat -> thread_is_alive v = Thread_is_alive).
Proof.
  unfold thread_is_alive.
  destruct (PY26PLUS v) eqn:E.
  - unfold PY26PLUS, slice2 in E. apply tuple_ge_spec in E. cbn [fst snd] in E.
    split; [split; intro H; [discriminate H|lia]|reflexivity].
  - assert (N : ~ ((1 < major v)%nat \/ (major v = 1%nat /\ (6 <= minor v)%nat))).
    { intro H. assert (T : PY26PLUS v = true).
      { unfold PY26PLUS, slice2. apply tuple_ge_spec. cbn [fst snd]. lia. }
      congruence. }
    split; [split; intro H; [lia|reflexivity]|lia].
Qed.

Lemma thread_is_alive_choice_witness :
  thread_is_alive (mk_version 2 4 6 "final" 0) = Thread_is_alive.
Proof.
  apply (proj2 (thread_is_alive_choice (mk_version 2 4 6 "final" 0))).
  simpl. lia.
Defined.

End CompatFacts.

(** ** Reading an event *)

Module EventReadFacts.

Import Event.

(** X5: [event_is_set] answers with the flag of the event whichever spelling
    the object knows: the [AttributeError] of an object without [is_set]
    never leaves the function, and the answer is that of [isSet]. *)
Theorem event_is_set_absorbs_attribute_error (e : event) :
  event_is_set e = isSet e /\
  (exists flag : bool, event_is_set e = Ok flag) /\
  (is_set e = Raise AttributeError -> exists flag, e = LegacyEvent flag).
Proof.
  destruct e as [|flag|flag]; cbn.
  - repeat split; [now exists false|discriminate].
  - repeat split; [now exists flag|discriminate].
  - repeat split; [now exists flag|]. intros _. now exists flag.
Qed.

Lemma event_is_set_absorbs_attribute_error_witness :
  exists flag, LegacyEvent true = LegacyEvent flag.
Proof.
  apply (proj2 (proj2 (event_is_set_absorbs_attribute_error (LegacyEvent true)))).
  reflexivity.
Defined.

End EventReadFacts.

(** ** Sockets *)

Module NetFacts.

Import Net.

Lemma track_app (l1 l2 : list sock_event) :
  forall open, track open (l1 ++ l2) = track (track open l1) l2.
Proof.
  induction l1 as [|e l1 IH]; intro open; [reflexivity|].
  destruct e; cbn [app track]; apply IH.
Qed.

(** The calls after [socket.socket] neither open nor close a socket. *)
Lemma after_socket_keeps_sockets (timeout : option Q)
  (source : option (string * nat)) (s : nat) (res : addrinfo) (open : list nat) :
  track open (fst (after_socket timeout source s res)) = open.
Proof.
  unfold after_socket.
  destruct timeout as [t|]; [destruct (on_settimeout res)|];
    (destruct source as [a|]; [destruct (on_bind res)|]);
    destruct (on_connect res); reflexivity.
Qed.

Lemma after_socket_index (timeout : option Q) (source : option (string * nat))
  (s s' : nat) (res : addrinfo) :
  snd (after_socket timeout source s res) = snd (after_socket timeout source s' res).
Proof.
  unfold after_socket.
  destruct timeout as [t|]; [destruct (on_settimeout res)|];
    (destruct source as [a|]; [destruct (on_bind res)|]);
    destruct (on_connect res); reflexivity.
Qed.

Lemma close_the_only_socket (s : nat) : remove Nat.eq_dec s [s] = [].
Proof. cbn. destruct (Nat.eq_dec s s); [reflexivity|congruence]. Qed.

(** The sockets the loop leaves open, by outcome. *)
Lemma connect_loop_sockets (timeout : option Q) (source : option (string * nat))
  (results : list addrinfo) :
  forall (s : nat) (err : option py_error),
    match snd (connect_loop timeout source s results err) with
    | Returns k =>
        track [] (fst (connect_loop timeout source s results err)) = [k]
    | Raises e =>
        (is_socket_error e = true ->
         track [] (fst (connect_loop timeout source s results err)) = []) /\
        (List.length (track [] (fst (connect_loop timeout source s results err)))
         <= 1)%nat
    end.
Proof.
  induction results as [|res rest IH]; intros s err; cbn [connect_loop].
  - destruct err; cbn; split; auto.
  - destruct (on_socket res) as [|e].
    + destruct (after_socket timeout source s res) as [evs [e|]] eqn:Ea.
      * pose proof (after_socket_keeps_sockets timeout source s res) as K.
        rewrite Ea in K. cbn [fst] in K.
        destruct (is_socket_error e) eqn:Ee.
        -- cbn [fst snd]. specialize (IH (S s) (Some e)).
           assert (T : track [] (Opened s :: evs ++
                          Closed s :: fst (connect_loop timeout source (S s) rest (Some e)))
                       = track [] (fst (connect_loop timeout source (S s) rest (Some e)))).
           { cbn [track]. rewrite track_app, K. cbn [track].
             now rewrite close_the_only_socket. }
           rewrite T. exact IH.
        -- cbn [fst snd track]. rewrite K. split; [congruence|cbn; lia].
      * pose proof (after_socket_keeps_sockets timeout source s res) as K.
        rewrite Ea in K. cbn [fst] in K.
        cbn [fst snd track]. now rewrite K.
    + destruct (is_socket_error e) eqn:Ee.
      * apply IH.
      * cbn. split; [congruence|lia].
Qed.

(** X6: when [create_connection] returns a socket, that socket is connected
    and it is the only one left open: every socket made for an address
    that failed has been closed. *)
Theorem create_connection_returns_the_only_open_socket
  (resolved : completion (list addrinfo)) (timeout : option Q)
  (source : option (string * nat)) (log : list sock_event) (k : nat) :
  create_connection resolved timeout source = (log, Returns k) ->
  track [] log = [k] /\ exists peer, In (Connected k peer) log.
Proof.
  unfold create_connection. destruct resolved as [results|e]; [|discriminate].
  intro H. split.
  - pose proof (connect_loop_sockets timeout source results 0 None) as L.
    rewrite H in L. exact L.
  - revert log H. generalize 0%nat at 1. generalize (@None py_error).
    induction results as [|res rest IH]; intros err s log H; cbn [connect_loop] in H.
    + destruct err; discriminate H.
    + destruct (on_socket res) as [|e].
      * destruct (after_socket timeout source s res) as [evs [e|]] eqn:Ea.
        -- destruct (is_socket_error e); [|discriminate H].
           injection H as <- H.
           destruct (connect_loop timeout source (S s) rest (Some e)) as [log' out] eqn:El.
           cbn [snd] in H. subst out.
           destruct (IH _ _ _ El) as [peer Hp].
           exists peer. right. apply in_or_app. right. right. exact Hp.
        -- injection H as <- <-. exists (sa res). right.
           unfold after_socket in Ea.
           destruct timeout as [t|]; [destruct (on_settimeout res)|];
             (destruct source as [a|]; [destruct (on_bind res)|]);
             destruct (on_connect res); inversion Ea; subst;
             repeat (first [now left | right]).
      * destruct (is_socket_error e); [|discriminate H].
        apply (IH _ _ _ H).
Qed.

Lemma create_connection_returns_the_only_open_socket_witness :
  track [] (fst (create_connection
                   (Returns [bench_refused; bench_unbindable; bench_accepting])
                   (Some 10%Q) bench_source)) = [2%nat].
Proof.
  apply (create_connection_returns_the_only_open_socket
           (Returns [bench_refused; bench_unbindable; bench_accepting])
           (Some 10%Q) bench_source).
  reflexivity.
Defined.

(** X7: a [socket.error] that leaves [create_connection] leaves no socket
    open behind it; an exception of another kind, which the function does
    not catch, can leave one open and no more. *)
Theorem create_connection_socket_error_leaves_nothing_open
  (resolved : completion (list addrinfo)) (timeout : option Q)
  (source : option (string * nat)) (log : list sock_event) (e : py_error) :
  create_connection resolved timeout source = (log, Raises e) ->
  (is_socket_error e = true -> track [] log = []) /\
  (List.length (track [] log) <= 1)%nat.
Proof.
  unfold create_connection. destruct resolved as [results|e0].
  - intro H.
    pose proof (connect_loop_sockets timeout source results 0 None) as L.
    rewrite H in L. exact L.
  - intro H. injection H as <- _. cbn. split; [reflexivity|lia].
Qed.

Lemma create_connection_socket_error_leaves_nothing_open_witness :
  track [] (fst (create_connection (Returns [bench_refused; bench_unbindable])
                   None bench_source)) = [].
Proof.
  apply (proj1 (create_connection_socket_error_leaves_nothing_open
                  (Returns [bench_refused; bench_unbindable]) None bench_source
                  _ (SocketError "EADDRNOTAVAIL") eq_refl)).
  reflexivity.
Defined.

(** One entry that fails with a [socket.error]: its socket, if any, is
    closed and the loop goes on with the next entry. *)
Lemma connect_loop_step_failure (timeout : option Q)
  (source : option (string * nat)) (res : addrinfo) (l : list addrinfo)
  (s : nat) (err : option py_error) (e : py_error) :
  first_failure timeout source res = Some e ->
  is_socket_error e = true ->
  connect_loop timeout source s (res :: l) err =
  (fst (connect_loop timeout source s [res] err)
     ++ fst (connect_loop timeout source (S s) l (Some e)),
   snd (connect_loop timeout source (S s) l (Some e))).
Proof.
  intros Hf He. unfold first_failure in Hf. cbn [connect_loop].
  destruct (on_socket res) as [|e0].
  - rewrite (after_socket_index timeout source 0 s res) in Hf.
    destruct (after_socket timeout source s res) as [evs o].
    cbn [snd] in Hf. subst o. rewrite He. cbn [fst snd].
    f_equal. cbn [app]. f_equal. rewrite <- app_assoc. reflexivity.
  - injection Hf as ->. rewrite He. cbn [fst app].
    now destruct (connect_loop timeout source (S s) l (Some e)).
Qed.

(** Entries that fail with a [socket.error] are passed over: the loop
    goes on with the rest, remembering the last error. *)
Lemma connect_loop_skips_failures (timeout : option Q)
  (source : option (string * nat)) (pre rest : list addrinfo) :
  forall (s : nat) (err : option py_error),
    forallb (fails_with_socket_error timeout source) pre = true ->
    connect_loop timeout source s (pre ++ rest) err =
    (fst (connect_loop timeout source s pre err)
       ++ fst (connect_loop timeout source (s + List.length pre) rest
                 (last_caught timeout source pre err)),
     snd (connect_loop timeout source (s + List.length pre) rest
            (last_caught timeout source pre err))).
Proof.
  induction pre as [|res pre IH]; intros s err H.
  - cbn [app List.length last_caught fold_left connect_loop].
    rewrite Nat.add_0_r.
    destruct err; cbn [fst app]; now destruct (connect_loop _ _ _ _ _).
  - cbn [forallb] in H. apply andb_true_iff in H. destruct H as [Hr Hp].
    unfold fails_with_socket_error in Hr.
    destruct (first_failure timeout source res) as [e|] eqn:Hf; [|discriminate Hr].
    assert (Hl : last_caught timeout source (res :: pre) err
                 = last_caught timeout source pre (Some e)).
    { unfold last_caught. cbn [fold_left]. now rewrite Hf. }
    rewrite Hl. cbn [app List.length].
    replace (s + S (List.length pre))%nat with (S s + List.length pre)%nat by lia.
    rewrite (connect_loop_step_failure timeout source res (pre ++ rest) s err e Hf Hr).
    rewrite (connect_loop_step_failure timeout source res pre s err e Hf Hr).
    rewrite (IH (S s) (Some e) Hp). cbn [fst snd].
    now rewrite app_assoc.
Qed.

(** X8: [create_connection] returns the socket of the first address that can
    be connected, the addresses before it having failed with a
    [socket.error]; the addresses after it are not tried. *)
Theorem create_connection_first_success (timeout : option Q)
  (source : option (string * nat)) (pre post : list addrinfo) (res : addrinfo) :
  forallb (fails_with_socket_error timeout source) pre = true ->
  first_failure timeout source res = None ->
  snd (create_connection (Returns (pre ++ res :: post)) timeout source)
    = Returns (List.length pre) /\
  fst (create_connection (Returns (pre ++ res :: post)) timeout source)
    = fst (create_connection (Returns (pre ++ [res])) timeout source).
Proof.
  intros Hp Hr. unfold create_connection.
  rewrite !(connect_loop_skips_failures timeout source pre _ 0 None Hp).
  cbn [Nat.add fst snd connect_loop].
  unfold first_failure in Hr.
  destruct (on_socket res) as [|e]; [|discriminate Hr].
  rewrite (after_socket_index timeout source 0 (List.length pre) res) in Hr.
  destruct (after_socket timeout source (List.length pre) res) as [evs o].
  cbn [snd] in Hr. subst o. cbn [fst snd]. split; reflexivity.
Qed.

Lemma create_connection_first_success_witness :
  snd (create_connection
         (Returns ([bench_refused; bench_unbindable]
                     ++ bench_accepting :: [bench_refused]))
         (Some 10%Q) bench_source) = Returns 2%nat.
Proof.
  apply (proj1 (create_connection_first_success (Some 10%Q) bench_source
                  [bench_refused; bench_unbindable] [bench_refused]
                  bench_accepting eq_refl eq_refl)).
Defined.

(** X9: when every address fails with a [socket.error], [create_connection]
    raises the error of the last address; with no address at all it
    raises its own "empty list" error.  No socket call is made in the
    latter case. *)
Theorem create_connection_raises_last_error (timeout : option Q)
  (source : option (string * nat)) (init : list addrinfo) (last : addrinfo)
  (e : py_error) :
  forallb (fails_with_socket_error timeout source) (init ++ [last]) = true ->
  first_failure timeout source last = Some e ->
  snd (create_connection (Returns (init ++ [last])) timeout source) = Raises e /\
  create_connection (Returns []) timeout source =
    ([], Raises (SocketError "getaddrinfo returns an empty list")).
Proof.
  intros H He. split; [|reflexivity].
  unfold create_connection.
  rewrite <- (app_nil_r (init ++ [last])).
  rewrite (connect_loop_skips_failures timeout source (init ++ [last]) [] 0 None H).
  cbn [snd connect_loop].
  unfold last_caught. rewrite fold_left_app. cbn [fold_left]. rewrite He.
  reflexivity.
Qed.

Lemma create_connection_raises_last_error_witness :
  snd (create_connection (Returns ([bench_refused] ++ [bench_unbindable]))
         None bench_source) = Raises (SocketError "EADDRNOTAVAIL").
Proof.
  apply (proj1 (create_connection_raises_last_error None bench_source
                  [bench_refused] bench_unbindable
                  (SocketError "EADDRNOTAVAIL") eq_refl eq_refl)).
Defined.

Lemma after_socket_optional_calls (timeout : option Q)
  (source : option (string * nat)) (s : nat) (res : addrinfo) :
  (source = None ->
   existsb is_bound (fst (after_socket timeout source s res)) = false) /\
  (timeout = None ->
   existsb is_timeout_set (fst (after_socket timeout source s res)) = false).
Proof.
  unfold after_socket.
  split; intros ->;
    [destruct timeout as [t|]; [destruct (on_settimeout res)|]
    |destruct source as [a|]; [destruct (on_bind res)|]];
    destruct (on_connect res); reflexivity.
Qed.

(** X10: without a source address no socket is bound, and with the default
    timeout no socket has its timeout set, whatever the addresses and
    whatever the outcome. *)
Theorem create_connection_optional_calls
  (resolved : completion (list addrinfo)) (timeout : option Q)
  (source : option (string * nat)) :
  (source = None ->
   existsb is_bound (fst (create_connection resolved timeout source)) = false) /\
  (timeout = None ->
   existsb is_timeout_set (fst (create_connection resolved timeout source)) = false).
Proof.
  unfold create_connection. destruct resolved as [results|e0]; [|split; reflexivity].
  generalize 0%nat. generalize (@None py_error).
  induction results as [|res rest IH]; intros err s; cbn [connect_loop].
  - destruct err; split; reflexivity.
  - destruct (on_socket res) as [|e].
    + pose proof (after_socket_optional_calls timeout source s res) as [Hb Ht].
      destruct (after_socket timeout source s res) as [evs [e|]] eqn:Ea;
        cbn [fst] in Hb, Ht.
      * destruct (is_socket_error e).
        -- destruct (IH (Some e) (S s)) as [Ib It].
           cbn [fst existsb is_bound is_timeout_set orb].
           rewrite !existsb_app. cbn [existsb is_bound is_timeout_set orb].
           split; intro H; [rewrite (Hb H), (Ib H)|rewrite (Ht H), (It H)];
             reflexivity.
        -- cbn [fst existsb is_bound is_timeout_set orb]. split; auto.
      * cbn [fst existsb is_bound is_timeout_set orb]. split; auto.
    + destruct (is_socket_error e); [apply IH|split; reflexivity].
Qed.

Lemma create_connection_optional_calls_witness :
  existsb is_bound
    (fst (create_connection (Returns [bench_refused; bench_accepting])
            (Some 10%Q) None)) = false.
Proof.
  apply (proj1 (create_connection_optional_calls
                  (Returns [bench_refused; bench_accepting]) (Some 10%Q) None)).
  reflexivity.
Defined.

End NetFacts.

(** ** HTTP connections, handlers and the opener *)

Module HttpFacts.

Import Http.
Local Open Scope string_scope.

Lemma kw_set_same (k : string) (v : pyval) (kw : kwargs) : kw_set k v kw k = Some v.
Proof. unfold kw_set. now rewrite String.eqb_refl. Qed.

Lemma kw_set_other (k k' : string) (v : pyval) (kw : kwargs) :
  k' <> k -> kw_set k v kw k' = kw k'.
Proof. intro H. unfold kw_set. apply String.eqb_neq in H. now rewrite H. Qed.

(** What a connection built by [inner] looks like, whatever keyword
    arguments [inner] is called with. *)
Lemma inner_builds (c : conn_class) (source_address timeout context : pyval)
  (host : string) (kw : kwargs) :
  conn_host (_build_connection (conn_init c) source_address timeout context host kw)
    = host /\
  conn_source_address
    (_build_connection (conn_init c) source_address timeout context host kw)
    = source_address /\
  conn_timeout
    (_build_connection (conn_init c) source_address timeout context host kw)
    = timeout /\
  conn_super_kwargs
    (_build_connection (conn_init c) source_address timeout context host kw)
    "context" = (if truthy context then Some context else kw "context").
Proof.
  unfold _build_connection, conn_init, kw_pop, kw_set.
  destruct (truthy context); cbn; auto.
Qed.

(** X11: the connection [inner] builds has the source address and the timeout
    given to [_build_connection], also when the caller of [inner] passes
    a [timeout] or a [source_address] of its own; neither keyword reaches
    the constructor of the base class, [context] reaches it only when it
    is true, and every other keyword goes through unchanged. *)
Theorem build_connection_overrides_caller (c : conn_class)
  (source_address timeout context : pyval) (host : string) (kw : kwargs) :
  conn_source_address
    (_build_connection (conn_init c) source_address timeout context host kw)
    = source_address /\
  conn_timeout
    (_build_connection (conn_init c) source_address timeout context host kw)
    = timeout /\
  conn_super_kwargs
    (_build_connection (conn_init c) source_address timeout context host kw)
    "source_address" = None /\
  conn_super_kwargs
    (_build_connection (conn_init c) source_address timeout context host kw)
    "timeout" = None /\
  conn_super_kwargs
    (_build_connection (conn_init c) source_address timeout context host kw)
    "context" = (if truthy context then Some context else kw "context") /\
  (forall k : string,
     k <> "source_address"%string -> k <> "timeout"%string -> k <> "context"%string ->
     conn_super_kwargs
       (_build_connection (conn_init c) source_address timeout context host kw) k
     = kw k).
Proof.
  destruct (inner_builds c source_address timeout context host kw)
    as (_ & Hs & Ht & Hc).
  split; [exact Hs|]. split; [exact Ht|].
  split; [unfold _build_connection, conn_init, kw_pop;
          destruct (truthy context); reflexivity|].
  split; [unfold _build_connection, conn_init, kw_pop;
          destruct (truthy context); reflexivity|].
  split; [exact Hc|].
  intros k H1 H2 H3.
  unfold _build_connection, conn_init, kw_pop. cbn [snd conn_super_kwargs].
  apply String.eqb_neq in H1, H2, H3.
  destruct (truthy context); unfold kw_set; rewrite ?H1, ?H2, ?H3; reflexivity.
Qed.

Lemma build_connection_overrides_caller_witness :
  conn_super_kwargs
    (_build_connection (conn_init SpeedtestHTTPConnection)
       (VAddr "198.51.100.7" 0) (VNum 10) VNone "example.org"
       (kw_set "timeout" (VNum 60) (kw_set "strict" (VNum 1) kw_empty)))
    "strict" = Some (VNum 1).
Proof.
  apply (proj2 (proj2 (proj2 (proj2 (proj2
    (build_connection_overrides_caller SpeedtestHTTPConnection
       (VAddr "198.51.100.7" 0) (VNum 10) VNone "example.org"
       (kw_set "timeout" (VNum 60) (kw_set "strict" (VNum 1) kw_empty)))))))
    "strict"%string); discriminate.
Defined.

(** X12: every connection made through a handler of the opener uses the
    opener's timeout, and is bound to port 0 of the source address when
    one that is not the empty string was given, and to nothing
    otherwise.  The opener has one such handler for HTTP and one for
    HTTPS, in that order. *)
Theorem opener_connections (user_agent : string) (source_address : option string)
  (timeout : Q) (h : handler) (build : string -> kwargs -> connection)
  (host : string) (kw : kwargs) :
  In h (handlers (snd (build_opener user_agent source_address timeout))) ->
  connection_builder h = Some build ->
  conn_timeout (build host kw) = VNum timeout /\
  conn_source_address (build host kw) =
    match source_address with
    | Some a => if String.eqb a "" then VNone else VAddr a 0
    | None => VNone
    end /\
  conn_super_kwargs (build host kw) "context" = kw "context" /\
  map conn_class_of
    (flat_map (fun h' => match connection_builder h' with
                         | Some b => [b host kw]
                         | None => []
                         end)
       (handlers (snd (build_opener user_agent source_address timeout))))
  = [SpeedtestHTTPConnection; SpeedtestHTTPSConnection].
Proof.
  intros Hin Hb. cbn [build_opener snd handlers In] in Hin.
  assert (Hlast : map conn_class_of
    (flat_map (fun h' => match connection_builder h' with
                         | Some b => [b host kw]
                         | None => []
                         end)
       (handlers (snd (build_opener user_agent source_address timeout))))
    = [SpeedtestHTTPConnection; SpeedtestHTTPSConnection]) by reflexivity.
  destruct Hin as [<-|[<-|[<-|[<-|[<-|[<-|[]]]]]]]; cbn [connection_builder] in Hb;
    try discriminate Hb; injection Hb as <-;
    match goal with
    | |- context [_build_connection (conn_init ?c) ?sa ?t ?ctx host kw] =>
        destruct (inner_builds c sa t ctx host kw) as (_ & Hs & Ht & Hc);
        rewrite Hs, Ht, Hc
    end;
    cbn [truthy]; (split; [reflexivity|]); (split; [|split; [reflexivity|exact Hlast]]);
    (destruct source_address as [a|]; [destruct (String.eqb a "")|]; reflexivity).
Qed.

Lemma opener_connections_witness :
  conn_source_address
    (_build_connection (conn_init SpeedtestHTTPSConnection) VNone (VNum 10) VNone
       "example.org" (kw_set "source_address" (VAddr "203.0.113.9" 0) kw_empty))
  = VNone.
Proof.
  apply (proj1 (proj2
    (opener_connections "speedtest-cli" (Some ""%string) 10
       (SpeedtestHTTPSHandler 0 VNone VNone (VNum 10))
       (_build_connection (conn_init SpeedtestHTTPSConnection) VNone (VNum 10) VNone)
       "example.org" (kw_set "source_address" (VAddr "203.0.113.9" 0) kw_empty)
       (or_intror (or_intror (or_introl eq_refl))) eq_refl))).
Defined.

End HttpFacts.

(** ** Gzip-encoded responses *)

Module GzipFacts.

Import Gzip.

Lemma read_all_spec (resp : response) :
  forall (io : bytes) (n : nat),
    read_all resp io n =
    (io ++ List.concat (leading_chunks resp),
     skipn (S (List.length (leading_chunks resp))) resp,
     (n + S (List.length (leading_chunks resp)))%nat).
Proof.
  induction resp as [|chunk rest IH]; intros io n; cbn [read_all leading_chunks].
  - cbn. now rewrite app_nil_r, Nat.add_1_r.
  - destruct (Nat.eqb (List.length chunk) 0).
    + cbn. now rewrite app_nil_r, Nat.add_1_r.
    + rewrite IH. cbn [List.concat List.length skipn].
      rewrite <- app_assoc. f_equal. lia.
Qed.

Lemma leading_all (resp : response) :
  forallb (fun chunk => negb (Nat.eqb (List.length chunk) 0)) resp = true ->
  leading_chunks resp = resp.
Proof.
  induction resp as [|chunk rest IH]; intro H; cbn [leading_chunks]; [reflexivity|].
  cbn [forallb] in H. apply andb_true_iff in H. destruct H as [Hc Hr].
  apply negb_true_iff in Hc. rewrite Hc. now rewrite IH.
Qed.

(** X13: with [gzip] at hand the constructor buffers exactly the bytes the
    response delivers before its first empty read, in order and nothing
    else, makes one read more than there are such chunks, and rewinds the
    buffer; a response that delivers no empty chunk is buffered whole and
    used up.  Without [gzip] it raises [SpeedtestHTTPError]. *)
Theorem gzip_init_buffers_the_body (resp : response) :
  gzip_init false resp = Raise SpeedtestHTTPError /\
  (exists g,
     gzip_init true resp = Ok g /\
     io g = List.concat (leading_chunks resp) /\
     io_position g = 0%nat /\
     reads_made g = S (List.length (leading_chunks resp)) /\
     (forallb (fun chunk => negb (Nat.eqb (List.length chunk) 0)) resp = true ->
      io g = List.concat resp /\ response_left g = [])).
Proof.
  split; [reflexivity|].
  unfold gzip_init. cbn [negb]. rewrite read_all_spec. cbn [fst snd app Nat.add].
  eexists. split; [reflexivity|]. cbn [io io_position reads_made response_left].
  repeat split.
  - now rewrite (leading_all resp H).
  - rewrite (leading_all resp H).
    apply skipn_all2. lia.
Qed.

Lemma gzip_init_buffers_the_body_witness :
  exists g,
    gzip_init true [[Byte.x1f; Byte.x8b]; [Byte.x08]] = Ok g /\
    io g = [Byte.x1f; Byte.x8b; Byte.x08] /\ response_left g = [].
Proof.
  destruct (proj2 (gzip_init_buffers_the_body [[Byte.x1f; Byte.x8b]; [Byte.x08]]))
    as (g & Hg & _ & _ & _ & Hall).
  exists g. split; [exact Hg|]. apply Hall. reflexivity.
Defined.

Example bench_response_stops_at_empty_chunk :
  exists g,
    gzip_init true bench_response = Ok g /\
    io g = [Byte.x1f; Byte.x8b; Byte.x08] /\
    response_left g = [[Byte.xff]] /\ reads_made g = 3%nat.
Proof. eexists. repeat split. Qed.

End GzipFacts.

(** ** The print function of Python 2 *)

Module PrintFacts.

Import Print.

Section PrintTheory.

Variable encode : string -> string -> string -> string.
Variable stdout : fileobj.

Lemma write_args_later (fp : fileobj) (sep : pyobj) (args : list pyobj) :
  forall i : nat, i <> 0%nat ->
    write_args encode fp sep i args =
    flat_map (fun a => write encode fp sep ++ write encode fp a) args.
Proof.
  induction args as [|a rest IH]; intros i Hi; cbn [write_args flat_map].
  - reflexivity.
  - apply Nat.eqb_neq in Hi. rewrite Hi. rewrite (IH (S i)) by discriminate.
    now rewrite <- app_assoc.
Qed.

Lemma intersperse_writes (fp : fileobj) (sep : pyobj) (rest : list pyobj) :
  forall a : pyobj,
    flat_map (write encode fp) (intersperse sep (a :: rest)) =
    write encode fp a
      ++ flat_map (fun b => write encode fp sep ++ write encode fp b) rest.
Proof.
  induction rest as [|b rest IH]; intro a.
  - reflexivity.
  - change (intersperse sep (a :: b :: rest))
      with (a :: sep :: intersperse sep (b :: rest)).
    cbn [flat_map]. rewrite (IH b). now rewrite <- app_assoc.
Qed.

(** The loop over the arguments writes them with the separator between
    each two. *)
Lemma write_args_intersperse (fp : fileobj) (sep : pyobj) (args : list pyobj) :
  write_args encode fp sep 0 args =
  flat_map (write encode fp) (intersperse sep args).
Proof.
  destruct args as [|a rest]; [reflexivity|].
  rewrite intersperse_writes. cbn [write_args Nat.eqb app].
  now rewrite write_args_later by discriminate.
Qed.

Lemma intersperse_in (sep d : pyobj) (args : list pyobj) :
  In d (intersperse sep args) -> d = sep \/ In d args.
Proof.
  induction args as [|a rest IH]; [intros []|].
  destruct rest as [|b rest].
  - intros [<-|[]]. right. now left.
  - change (intersperse sep (a :: b :: rest))
      with (a :: sep :: intersperse sep (b :: rest)).
    intros [<-|[<-|Hd]].
    + right. now left.
    + now left.
    + destruct (IH Hd) as [->|Hin]; [now left|right; now right].
Qed.

(** A successful call, spelled out. *)
Lemma print_success (args : list pyobj) (kw : kwargs) (fp : fileobj) (ops : list op) :
  target stdout kw = Some fp ->
  print_ encode stdout args kw = Printed ops ->
  ops = flat_map (write encode fp)
          (intersperse (effective_sep args kw) args ++ [effective_end args kw]).
Proof.
  unfold target, print_, effective_sep, effective_end, want_unicode.
  intros Hfp H. rewrite Hfp in H.
  rewrite flat_map_app, <- write_args_intersperse. cbn [flat_map]. rewrite app_nil_r.
  destruct (kw_sep kw) as [[|s|s|s]|]; try discriminate H;
    (destruct (kw_end kw) as [[|e|e|e]|]; try discriminate H);
    (destruct (kw_rest kw); [|discriminate H]);
    injection H as <-; cbn [is_unicode orb];
    rewrite ?orb_true_r; try reflexivity.
Qed.

Lemma payload_of_writes (fp : fileobj) (items : list pyobj) :
  payload (flat_map (write encode fp) items) = map (rendered encode fp) items.
Proof.
  induction items as [|d rest IH]; [reflexivity|].
  cbn [flat_map write app payload map]. now rewrite IH.
Qed.

Lemma rendered_is_a_string (fp : fileobj) (d : pyobj) :
  is_basestring (rendered encode fp d) = true /\
  (is_file fp = true -> is_str (rendered encode fp d) = true) /\
  (is_unicode d = false -> is_str (rendered encode fp d) = true).
Proof.
  unfold rendered. destruct d; cbn; destruct (is_file fp); cbn;
    repeat split; auto; discriminate.
Qed.

(** X14: a call with [file=None] writes nothing and returns, even with
    arguments that would otherwise be refused; with a file, a separator
    or terminator that is not a string, or any further keyword, is
    refused with [TypeError], the separator being looked at first, the
    terminator next. *)
Theorem print_checks_after_file (args : list pyobj) (kw : kwargs) :
  (kw_file kw = Some None -> print_ encode stdout args kw = Printed []) /\
  (forall fp shown,
     target stdout kw = Some fp -> kw_sep kw = Some (PyOther shown) ->
     print_ encode stdout args kw = TypeError "sep must be None or a string") /\
  (forall fp shown,
     target stdout kw = Some fp ->
     (forall s, kw_sep kw <> Some (PyOther s)) ->
     kw_end kw = Some (PyOther shown) ->
     print_ encode stdout args kw = TypeError "end must be None or a string") /\
  (forall fp,
     target stdout kw = Some fp ->
     (forall s, kw_sep kw <> Some (PyOther s)) ->
     (forall s, kw_end kw <> Some (PyOther s)) ->
     kw_rest kw <> [] ->
     print_ encode stdout args kw = TypeError "invalid keyword arguments to print()").
Proof.
  unfold target, print_. split; [|split; [|split]].
  - intro H. now rewrite H.
  - intros fp shown Hfp Hs. now rewrite Hfp, Hs.
  - intros fp shown Hfp Hs He. rewrite Hfp, He.
    destruct (kw_sep kw) as [[|s|s|s]|]; try reflexivity.
    exfalso. now apply (Hs s).
  - intros fp Hfp Hs He Hr. rewrite Hfp.
    destruct (kw_sep kw) as [[|s|s|s]|]; try (exfalso; now apply (Hs s));
      (destruct (kw_end kw) as [[|e|e|e]|]; try (exfalso; now apply (He e)));
      (destruct (kw_rest kw); [congruence|reflexivity]).
Qed.

(** X15: a call that goes through writes the arguments in order with the
    separator between each two, never before the first nor after the
    last, then the terminator, and flushes after every write; a
    separator or terminator given as a string is used as it is. *)
Theorem print_layout (args : list pyobj) (kw : kwargs) (fp : fileobj) (ops : list op) :
  target stdout kw = Some fp ->
  print_ encode stdout args kw = Printed ops ->
  ops = flat_map (fun d => [FpWrite (rendered encode fp d); FpFlush])
          (intersperse (effective_sep args kw) args ++ [effective_end args kw]) /\
  payload ops = map (rendered encode fp)
                  (intersperse (effective_sep args kw) args ++ [effective_end args kw]) /\
  (forall s, kw_sep kw = Some s -> is_basestring s = true ->
             effective_sep args kw = s) /\
  (forall e, kw_end kw = Some e -> is_basestring e = true ->
             effective_end args kw = e).
Proof.
  intros Hfp H. pose proof (print_success args kw fp ops Hfp H) as E.
  split; [exact E|]. split; [rewrite E; apply payload_of_writes|].
  unfold effective_sep, effective_end.
  split; intros v Hv Hb; rewrite Hv; destruct v; try reflexivity; discriminate Hb.
Qed.

(** X16: whatever is printed, [fp.write] only ever receives strings; a [file]
    only ever receives byte strings, every unicode string being encoded
    first; and when neither the arguments nor the separator nor the
    terminator is unicode, byte strings are all that is written to any
    object. *)
Theorem print_writes_strings (args : list pyobj) (kw : kwargs) (ops : list op) :
  print_ encode stdout args kw = Printed ops ->
  Forall (fun d => is_basestring d = true) (payload ops) /\
  (forall fp, target stdout kw = Some fp -> is_file fp = true ->
     Forall (fun d => is_str d = true) (payload ops)) /\
  (want_unicode args kw = false ->
     Forall (fun d => is_str d = true) (payload ops)).
Proof.
  intro H. destruct (target stdout kw) as [fp|] eqn:Hfp.
  - pose proof (print_success args kw fp ops Hfp H) as E.
    rewrite E, payload_of_writes. split; [|split].
    + apply Forall_map, Forall_forall. intros d _.
      apply (proj1 (rendered_is_a_string fp d)).
    + intros fp' [= <-] Hfile. apply Forall_map, Forall_forall. intros d _.
      apply (proj1 (proj2 (rendered_is_a_string fp d))). exact Hfile.
    + intro Hw. apply Forall_map, Forall_forall. intros d Hd.
      apply (proj2 (proj2 (rendered_is_a_string fp d))).
      assert (Hs : is_unicode (effective_sep args kw) = false).
      { unfold effective_sep. rewrite Hw. unfold want_unicode in Hw.
        apply orb_false_iff in Hw. destruct Hw as [Hw _].
        apply orb_false_iff in Hw. destruct Hw as [Hw _].
        destruct (kw_sep kw) as [[|s|s|s]|]; try reflexivity. discriminate Hw. }
      assert (He : is_unicode (effective_end args kw) = false).
      { unfold effective_end. rewrite Hw. unfold want_unicode in Hw.
        apply orb_false_iff in Hw. destruct Hw as [Hw _].
        apply orb_false_iff in Hw. destruct Hw as [_ Hw].
        destruct (kw_end kw) as [[|s|s|s]|]; try reflexivity. discriminate Hw. }
      assert (Ha : forall a, In a args -> is_unicode a = false).
      { unfold want_unicode in Hw. apply orb_false_iff in Hw. destruct Hw as [_ Hw].
        intros a Hin. destruct (is_unicode a) eqn:Eu; [|reflexivity].
        assert (T : existsb is_unicode args = true)
          by (apply existsb_exists; eauto).
        congruence. }
      apply in_app_or in Hd. destruct Hd as [Hd|[<-|[]]]; [|exact He].
      apply intersperse_in in Hd. destruct Hd as [->|Hd]; [exact Hs|now apply Ha].
  - unfold target in Hfp. unfold print_ in H. unfold target in *.
    destruct (kw_file kw) as [[f|]|]; try discriminate Hfp.
    injection H as <-. cbn [payload]. repeat split; constructor.
Qed.

End PrintTheory.

Lemma print_checks_after_file_witness :
  print_ bench_encode bench_stdout [PyStr "a"]
    (mk_kwargs (Some None) (Some (PyOther "3")) None ["colour"%string])
  = Printed [].
Proof.
  apply (proj1 (print_checks_after_file bench_encode bench_stdout [PyStr "a"]
                  (mk_kwargs (Some None) (Some (PyOther "3")) None
                     ["colour"%string]))).
  reflexivity.
Defined.

Lemma print_layout_witness :
  payload
    (match print_ bench_encode bench_stdout [PyStr "a"; PyOther "1"; PyNone]
             (mk_kwargs None (Some (PyStr ", ")) None []) with
     | Printed ops => ops
     | TypeError _ => []
     end)
  = [PyStr "a"; PyStr ", "; PyStr "1"; PyStr ", "; PyStr "None";
     PyStr newline_char].
Proof.
  apply (proj1 (proj2
    (print_layout bench_encode bench_stdout [PyStr "a"; PyOther "1"; PyNone]
       (mk_kwargs None (Some (PyStr ", ")) None []) bench_stdout _
       eq_refl eq_refl))).
Defined.

Lemma print_writes_strings_witness :
  Forall (fun d => is_str d = true)
    (payload
       (flat_map (write bench_encode bench_stdout)
          [PyUnicode "x"; PyUnicode " "; PyNone; PyUnicode newline_char])).
Proof.
  apply (proj1 (proj2
    (print_writes_strings bench_encode bench_stdout [PyUnicode "x"; PyNone]
       (mk_kwargs None None None []) _ eq_refl)) bench_stdout eq_refl eq_refl).
Defined.

End PrintFacts.

(** ** Great-circle distance: range and symmetries *)

Module GeoRangeFacts.

Import PyFloat Geo GeoFacts.
Local Open Scope R_scope.


End GeoRangeFacts.
